(** * Scheduler service: job lifecycle, retry state machine, catch-up

    A shallow embedding of
      - [scheduler/app/jobs.py]     (publish trigger and retry tracker),
      - [scheduler/app/catchup.py]  (catch-up reconciler),
      - [scheduler.archived/app/routes/schedule.py] (create / cancel /
        reschedule handlers),
    over an explicit program state: the scheduler's job store, the
    module-level [_retry_counts] dict and the trace of outward effects
    (HTTP requests, scheduler calls, log records).

    How the program is read:
      - Operations run one at a time; what the remote ends reply and
        what the clock reads during a call is given to the call as an
        environment record.
      - The scheduler is APScheduler's, started, with one job store.
        The store is a list of jobs, so that two jobs under one key can
        be written down and their absence is a theorem, not a typing
        fact.  [get_job], [remove_job] and [add_job] follow the
        library: [remove_job] raises on a missing id, [add_job] raises
        on a taken id unless [replace_existing], which overwrites.
      - [raise_for_status] raises on every status outside 2xx.
      - A log record keeps the format string and its arguments; the
        durations read off the monotonic clock are left out.
      - [datetime.fromisoformat], [str] of a non-string value and the
        text of an HTTP status error are library behaviour, kept as a
        parameter ([PyRuntime]); a reference instance runs the
        examples. *)

From Stdlib Require Import ZArith List String Ascii Lia.
From stdpp Require Import base option list gmap strings pretty.

Local Open Scope string_scope.
Local Open Scope list_scope.
Local Open Scope Z_scope.

(** ** Python values decoded from a JSON body *)

(** What [response.json()] can return.  A dict is kept as its items in
    insertion order; a finite float is kept as [m * 2^e], of which the
    code only observes whether it is zero (NaN and the infinities, which
    a JSON text cannot spell, are left out). *)
#[local] Unset Elimination Schemes.
Inductive pyval : Type :=
| PNone
| PBool (b : bool)
| PInt (z : Z)
| PFloat (m e : Z)
| PStr (s : string)
| PList (l : list pyval)
| PDict (d : list (string * pyval)).
#[local] Set Elimination Schemes.

(** Python truthiness, as used by [not x] and [x or y]. *)
Definition truthy (v : pyval) : bool :=
  match v with
  | PNone => false
  | PBool b => b
  | PInt z => negb (z =? 0)
  | PFloat m _ => negb (m =? 0)
  | PStr s => negb (String.eqb s "")
  | PList l => match l with [] => false | _ => true end
  | PDict d => match d with [] => false | _ => true end
  end.

(** [d.get(key)] on a dict: the value, or [None] when the key is absent. *)
Fixpoint dict_get (key : string) (d : list (string * pyval)) : pyval :=
  match d with
  | [] => PNone
  | (k, v) :: d' => if String.eqb k key then v else dict_get key d'
  end.

(** [d.get(key, default)]. *)
Fixpoint dict_get_default (key : string) (dflt : pyval)
         (d : list (string * pyval)) : pyval :=
  match d with
  | [] => dflt
  | (k, v) :: d' => if String.eqb k key then v else dict_get_default key dflt d'
  end.

(** [x or y]. *)
Definition py_or (x y : pyval) : pyval := if truthy x then x else y.

(** ** Time *)

(** An instant is a number of microseconds since the epoch, in UTC
    (the resolution of [datetime]). *)
Definition instant : Type := Z.

Definition timedelta_seconds (n : Z) : Z := n * 1000000.

(** A [datetime] as [fromisoformat] returns it: the wall-clock reading
    (microseconds since the epoch, read as if it were UTC) and the UTC
    offset when the string carried one ([tzinfo], [None] for a naive
    value). *)
Record datetime : Type := mk_datetime {
  wall : Z;
  tzinfo : option Z
}.

(** [dt.replace(tzinfo=timezone.utc)]. *)
Definition replace_tzinfo_utc (dt : datetime) : datetime :=
  {| wall := wall dt; tzinfo := Some 0 |}.

(** [if dt.tzinfo is None: dt = dt.replace(tzinfo=timezone.utc)]. *)
Definition ensure_aware (dt : datetime) : datetime :=
  match tzinfo dt with
  | None => replace_tzinfo_utc dt
  | Some _ => dt
  end.

(** The instant an aware datetime denotes. *)
Definition utc_instant (dt : datetime) : instant :=
  wall dt - default 0 (tzinfo dt).

(** ** HTTP *)

Record response : Type := mk_response {
  status_code : Z;
  text : string;
  json_body : option pyval   (* [None]: the body is not valid JSON *)
}.

(** The two families under [httpx.HTTPError]: transport-level request
    errors and the status error raised by [raise_for_status]. *)
Inductive http_error : Type :=
| RequestError (msg : string)
| HTTPStatusError (msg : string) (r : response).

(** [str(exc)]. *)
Definition error_str (e : http_error) : string :=
  match e with
  | RequestError msg => msg
  | HTTPStatusError msg _ => msg
  end.

(** What the remote end does with one request: the transport fails, or a
    response comes back. *)
Inductive reply : Type :=
| NetworkError (msg : string)
| Response (r : response).

(** [response.is_success]: a 2xx status. *)
Definition is_success (r : response) : bool :=
  (200 <=? status_code r) && (status_code r <? 300).

(** ** Library behaviour the code relies on *)

Class PyRuntime : Type := {
  (** [datetime.fromisoformat]; [None] stands for [ValueError]. *)
  fromisoformat : string -> option datetime;
  (** [str(v)] for a decoded JSON value other than a string. *)
  str_other : pyval -> string;
  (** The message httpx gives the error of [raise_for_status]. *)
  status_error_message : response -> string
}.

(** ** Scheduler jobs *)

(** A date-trigger job calling [trigger_linkedin_publish]:
    [id], [run_date] and the single element of [args]. *)
Record job : Type := mk_job {
  job_id : string;
  run_date : instant;
  job_arg : pyval
}.

(** ** Effects *)

Inductive level : Type := DEBUG | INFO | WARNING | ERROR.

Inductive logarg : Type :=
| AStr (s : string)
| AInt (z : Z)
| ATime (t : instant)
| AVal (v : pyval)
| AExc (e : http_error)
| AOptStr (o : option string).

(** The [json=] payload of a PATCH on [/posts/{id}]. *)
Inductive patch_json : Type :=
| StatusPublishing
| StatusFailed (errorMessage : string).

Inductive event : Type :=
| EvPatch (post_id : string) (body : patch_json)
| EvWebhook (post_id : string)
| EvGetPosts
| EvAddJob (j : job) (replace_existing : bool)
| EvRemoveJob (id : string)
| EvLog (lvl : level) (fmt : string) (fmt_args : list logarg).

Inductive exn : Type :=
| HTTPError (e : http_error)
| JSONDecodeError
| TypeError
| AttributeError
| ConflictingIdError (id : string)
| JobLookupError (id : string)
| HTTPException (status : Z) (detail : string).

(** ** Program state and the monad of the embedding *)

Record state : Type := mk_state {
  jobs : list job;                  (* the scheduler's job store *)
  retry_counts : gmap string Z;     (* [_retry_counts] *)
  trace : list event                (* effects so far, oldest first *)
}.

Inductive outcome (A : Type) : Type :=
| Returned (a : A)
| Raised (e : exn).
Arguments Returned {A} a.
Arguments Raised {A} e.

Definition M (A : Type) : Type := state -> outcome A * state.

Definition ret {A} (a : A) : M A := fun s => (Returned a, s).

Definition bind {A B} (m : M A) (k : A -> M B) : M B :=
  fun s => match m s with
           | (Returned a, s') => k a s'
           | (Raised e, s') => (Raised e, s')
           end.

Definition raise {A} (e : exn) : M A := fun s => (Raised e, s).

Notation "x <- m ;; k" := (bind m (fun x => k))
  (at level 62, m at next level, right associativity).
Notation "m ;;; k" := (bind m (fun _ => k))
  (at level 62, right associativity).

(** [try: body  except httpx.HTTPError as exc: handler]. *)
Definition try_except_http {A} (body : M A) (handler : http_error -> M A) : M A :=
  fun s => match body s with
           | (Raised (HTTPError e), s') => handler e s'
           | r => r
           end.

Definition emit (ev : event) : M unit :=
  fun s => (Returned tt,
            {| jobs := jobs s; retry_counts := retry_counts s;
               trace := trace s ++ [ev] |}).

Definition log (lvl : level) (fmt : string) (fmt_args : list logarg) : M unit :=
  emit (EvLog lvl fmt fmt_args).

Definition get_jobs : M (list job) := fun s => (Returned (jobs s), s).

Definition put_jobs (js : list job) : M unit :=
  fun s => (Returned tt,
            {| jobs := js; retry_counts := retry_counts s; trace := trace s |}).

Definition get_counts : M (gmap string Z) :=
  fun s => (Returned (retry_counts s), s).

Definition put_counts (c : gmap string Z) : M unit :=
  fun s => (Returned tt,
            {| jobs := jobs s; retry_counts := c; trace := trace s |}).

(** ** The scheduler (APScheduler, running, one job store)

    The store is a list of jobs; [get_job], [remove_job] and [add_job]
    behave as the library documents them. *)

Definition has_id (id : string) (j : job) : bool := String.eqb (job_id j) id.

Definition lookup_job (id : string) (js : list job) : option job :=
  find (has_id id) js.

(** Delete the first job with this id. *)
Fixpoint delete_job (id : string) (js : list job) : list job :=
  match js with
  | [] => []
  | j :: js' => if has_id id j then js' else j :: delete_job id js'
  end.

(** Overwrite the first job with this id ([update_job]). *)
Fixpoint update_job (j : job) (js : list job) : list job :=
  match js with
  | [] => []
  | j' :: js' => if has_id (job_id j) j' then j :: js' else j' :: update_job j js'
  end.

(** [sched.get_job(job_id)]: the job, or [None]. *)
Definition sched_get_job (id : string) : M (option job) :=
  js <- get_jobs ;; ret (lookup_job id js).

(** [sched.remove_job(job_id)]: raises [JobLookupError] when absent. *)
Definition sched_remove_job (id : string) : M unit :=
  js <- get_jobs ;;
  emit (EvRemoveJob id) ;;;
  match lookup_job id js with
  | Some _ => put_jobs (delete_job id js)
  | None => raise (JobLookupError id)
  end.

(** [sched.add_job(trigger_linkedin_publish, trigger="date", run_date=..,
    args=[..], id=.., replace_existing=..)]: on an id already in the
    store the job is overwritten when [replace_existing], and
    [ConflictingIdError] is raised otherwise. *)
Definition sched_add_job (j : job) (replace_existing : bool) : M unit :=
  js <- get_jobs ;;
  emit (EvAddJob j replace_existing) ;;;
  match lookup_job (job_id j) js with
  | None => put_jobs (js ++ [j])
  | Some _ =>
      if replace_existing then put_jobs (update_job j js)
      else raise (ConflictingIdError (job_id j))
  end.

(** ** HTTP client calls *)

(** [client.patch], [client.post], [client.get]: the request goes out,
    then a transport error is raised or the response returned. *)
Definition client_call (ev : event) (rp : reply) : M response :=
  emit ev ;;;
  match rp with
  | NetworkError msg => raise (HTTPError (RequestError msg))
  | Response r => ret r
  end.

Section WithRuntime.
Context `{PyRuntime}.

(** [response.raise_for_status()]. *)
Definition raise_for_status (r : response) : M unit :=
  if is_success r then ret tt
  else raise (HTTPError (HTTPStatusError (status_error_message r) r)).

(** [f"{v}"]. *)
Definition format_value (v : pyval) : string :=
  match v with
  | PStr s => s
  | _ => str_other v
  end.

(** ** [jobs.py] *)

Definition MAX_RETRIES : Z := 3.
Definition RETRY_DELAY_SECONDS : Z := 120.

(** [_retry_counts.get(post_id, 0)]. *)
Definition get_retry_count (post_id : string) : M Z :=
  c <- get_counts ;; ret (default 0 (c !! post_id)).

(** [_retry_counts.pop(post_id, None)]. *)
Definition clear_retry_count (post_id : string) : M unit :=
  c <- get_counts ;; put_counts (delete post_id c).

(** What the remote ends and the clock do during one firing. *)
Record fire_env : Type := mk_fire_env {
  publishing_reply : reply;   (* to the PATCH {"status": "publishing"} *)
  webhook_reply : reply;      (* to the POST on the n8n webhook *)
  failed_reply : reply;       (* to the PATCH {"status": "failed", ..} *)
  retry_clock : instant       (* [datetime.now] in [_schedule_retry] *)
}.

(** jobs.py, lines 28-39: the PATCH is not followed by
    [raise_for_status], so only a transport error reaches the [except]. *)
Definition _mark_post_failed (post_id error_message : string) (rp : reply) : M unit :=
  try_except_http
    (client_call (EvPatch post_id (StatusFailed error_message)) rp ;;;
     log INFO "Marked post %s as failed: %s" [AStr post_id; AStr error_message])
    (fun exc =>
       log ERROR "Failed to mark post %s as failed: %s" [AStr post_id; AExc exc]).

(** [f"post-{post_id}"]. *)
Definition job_key (post_id : string) : string := "post-" +:+ post_id.

(** jobs.py, lines 42-66. *)
Definition _schedule_retry (post_id : string) (retry_number : Z) (now : instant) : M unit :=
  let run_date := now + timedelta_seconds RETRY_DELAY_SECONDS in
  let job_id := job_key post_id in
  existing <- sched_get_job job_id ;;
  match existing with
  | Some _ => sched_remove_job job_id
  | None => ret tt
  end ;;;
  sched_add_job {| job_id := job_id; run_date := run_date; job_arg := PStr post_id |} true ;;;
  log INFO "Scheduled retry %d/%d for post %s at %s"
      [AInt retry_number; AInt MAX_RETRIES; AStr post_id; ATime run_date].

(** [r.text[:500] if r.text else "(empty)"]. *)
Definition body_excerpt (r : response) : string :=
  if String.eqb (text r) "" then "(empty)" else substring 0 500 (text r).

(** The body of the [try] block of [trigger_linkedin_publish]
    (jobs.py, lines 81-112). *)
Definition publish_attempt (post_id : string) (env : fire_env) : M unit :=
  publish_response <- client_call (EvPatch post_id StatusPublishing)
                                  (publishing_reply env) ;;
  raise_for_status publish_response ;;;
  log INFO "Marked post %s as publishing (status=%d, duration=%dms)"
      [AStr post_id; AInt (status_code publish_response)] ;;;
  response <- client_call (EvWebhook post_id) (webhook_reply env) ;;
  raise_for_status response ;;;
  log INFO "Successfully triggered n8n for post %s (status=%d, duration=%dms, body=%s)"
      [AStr post_id; AInt (status_code response); AStr (body_excerpt response)] ;;;
  clear_retry_count post_id.

(** The [except httpx.HTTPError as exc] block (jobs.py, lines 114-134). *)
Definition publish_failed (post_id : string) (retry_count : Z) (env : fire_env)
           (exc : http_error) : M unit :=
  let attempt := retry_count + 1 in
  let response_body :=
    match exc with
    | HTTPStatusError _ r => Some (body_excerpt r)
    | RequestError _ => None
    end in
  log ERROR "Failed to trigger n8n for post %s (attempt %d/%d): %s (response_body=%s)"
      [AStr post_id; AInt attempt; AInt (MAX_RETRIES + 1); AExc exc;
       AOptStr response_body] ;;;
  if retry_count <? MAX_RETRIES then
    c <- get_counts ;;
    put_counts (<[post_id := retry_count + 1]> c) ;;;
    _schedule_retry post_id (retry_count + 1) (retry_clock env)
  else
    clear_retry_count post_id ;;;
    _mark_post_failed post_id
      ("Failed after " +:+ pretty (MAX_RETRIES + 1) +:+ " attempts. Last error: "
         +:+ error_str exc)
      (failed_reply env).

(** jobs.py, lines 69-134. *)
Definition trigger_linkedin_publish (post_id : string) (env : fire_env) : M unit :=
  retry_count <- get_retry_count post_id ;;
  let attempt := retry_count + 1 in
  log INFO "Triggering publish for post %s (attempt %d/%d)"
      [AStr post_id; AInt attempt; AInt (MAX_RETRIES + 1)] ;;;
  try_except_http (publish_attempt post_id env)
                  (publish_failed post_id retry_count env).

(** ** [catchup.py] *)

Definition CATCHUP_DELAY_SECONDS : Z := 30.
Definition CATCHUP_INTERVAL_SECONDS : Z := 300.

(** What the clock and the system of record do during one catch-up. *)
Record catchup_env : Type := mk_catchup_env {
  clock : instant;        (* [datetime.now(timezone.utc)] *)
  posts_reply : reply     (* to GET /posts?status=scheduled *)
}.

(** [s.replace("Z", "+00:00")]. *)
Fixpoint replace_Z (s : string) : string :=
  match s with
  | EmptyString => EmptyString
  | String c s' =>
      if Ascii.eqb c "Z" then "+00:00" +:+ replace_Z s'
      else String c (replace_Z s')
  end.

(** [response.json()]. *)
Definition response_json (r : response) : M pyval :=
  match json_body r with
  | Some v => ret v
  | None => raise JSONDecodeError
  end.

(** The candidate list after the shape check (catchup.py, lines 47-49):
    [posts] itself when it is a list, [posts.get("posts", [])] when it
    is a dict, and [[]] otherwise. *)
Definition unwrap_posts (posts : pyval) : pyval :=
  match posts with
  | PList _ => posts
  | PDict d => dict_get_default "posts" (PList []) d
  | _ => PList []
  end.

Fixpoint chars (s : string) : list pyval :=
  match s with
  | EmptyString => []
  | String c s' => PStr (String c EmptyString) :: chars s'
  end.

(** What [for post in posts] walks through: the elements of a list, the
    keys of a dict, the characters of a string; anything else is not
    iterable. *)
Definition iterate (posts : pyval) : M (list pyval) :=
  match posts with
  | PList l => ret l
  | PDict d => ret (map (fun kv => PStr (fst kv)) d)
  | PStr s => ret (chars s)
  | _ => raise TypeError
  end.

(** One pass through the body of the [for] loop (catchup.py, lines
    52-97); [continue] returns the count unchanged. *)
Definition recover_post (now : instant) (post : pyval) (recovered : Z) : M Z :=
  match post with
  | PDict d =>
      let post_id := dict_get "id" d in
      let scheduled_at_raw :=
        py_or (dict_get "scheduledAt" d) (dict_get "scheduled_at" d) in
      if negb (truthy post_id) || negb (truthy scheduled_at_raw) then ret recovered
      else
        match scheduled_at_raw with
        | PStr raw =>
            match fromisoformat (replace_Z raw) with
            | None =>
                log WARNING "Could not parse scheduled_at for post %s: %s"
                    [AVal post_id; AVal scheduled_at_raw] ;;;
                ret recovered
            | Some parsed =>
                let scheduled_at := ensure_aware parsed in
                if utc_instant scheduled_at >=? now then ret recovered
                else
                  let job_id := "post-" +:+ format_value post_id in
                  existing <- sched_get_job job_id ;;
                  match existing with
                  | Some _ =>
                      log DEBUG "Post %s already has a pending job, skipping"
                          [AVal post_id] ;;;
                      ret recovered
                  | None =>
                      let run_date := now + timedelta_seconds CATCHUP_DELAY_SECONDS in
                      sched_add_job {| job_id := job_id; run_date := run_date;
                                       job_arg := post_id |} true ;;;
                      log INFO "Recovered missed post %s (was due %s, rescheduled to %s)"
                          [AVal post_id; ATime (utc_instant scheduled_at);
                           ATime run_date] ;;;
                      ret (recovered + 1)
                  end
            end
        | _ => ret recovered
        end
  | _ => raise AttributeError   (* [post.get] on a value that is not a dict *)
  end.

Fixpoint for_posts (now : instant) (posts : list pyval) (recovered : Z) : M Z :=
  match posts with
  | [] => ret recovered
  | post :: rest =>
      recovered' <- recover_post now post recovered ;;
      for_posts now rest recovered'
  end.

(** catchup.py, lines 23-105. *)
Definition recover_missed_posts (env : catchup_env) : M Z :=
  let recovered := 0 in
  let now := clock env in
  fetched <-
    try_except_http
      (response <- client_call EvGetPosts (posts_reply env) ;;
       raise_for_status response ;;;
       posts <- response_json response ;;
       ret (Some posts))
      (fun exc =>
         log ERROR "Failed to fetch scheduled posts for catch-up: %s" [AExc exc] ;;;
         ret None) ;;
  match fetched with
  | None => ret 0
  | Some posts =>
      candidates <- iterate (unwrap_posts posts) ;;
      recovered <- for_posts now candidates recovered ;;
      (if negb (recovered =? 0)
       then log INFO "Catch-up complete: recovered %d missed post(s)" [AInt recovered]
       else log INFO "Catch-up complete: no missed posts found" []) ;;;
      ret recovered
  end.

(** ** [routes/schedule.py] *)

Record ScheduleResponse : Type := mk_ScheduleResponse {
  resp_job_id : string;
  resp_post_id : string;
  resp_scheduled_at : instant;
  resp_status : string
}.

(** routes/schedule.py, lines 14-43. *)
Definition create_schedule (post_id : string) (scheduled_at : instant)
  : M ScheduleResponse :=
  let job_id := job_key post_id in
  existing <- sched_get_job job_id ;;
  match existing with
  | Some _ =>
      raise (HTTPException 409 ("Post " +:+ post_id +:+ " is already scheduled"))
  | None =>
      sched_add_job {| job_id := job_id; run_date := scheduled_at;
                       job_arg := PStr post_id |} false ;;;
      log INFO "Scheduled post %s for %s" [AStr post_id; ATime scheduled_at] ;;;
      ret {| resp_job_id := job_id; resp_post_id := post_id;
             resp_scheduled_at := scheduled_at; resp_status := "scheduled" |}
  end.

(** routes/schedule.py, lines 46-62; the response is its pair of
    [status] and [post_id]. *)
Definition cancel_schedule (post_id : string) : M (string * string) :=
  let job_id := job_key post_id in
  job <- sched_get_job job_id ;;
  match job with
  | None =>
      raise (HTTPException 404 ("No schedule found for post " +:+ post_id))
  | Some _ =>
      sched_remove_job job_id ;;;
      log INFO "Cancelled schedule for post %s" [AStr post_id] ;;;
      ret ("cancelled", post_id)
  end.

(** routes/schedule.py, lines 65-91. *)
Definition reschedule_post (post_id : string) (scheduled_at : instant)
  : M ScheduleResponse :=
  let job_id := job_key post_id in
  existing <- sched_get_job job_id ;;
  match existing with
  | Some _ => sched_remove_job job_id
  | None => ret tt
  end ;;;
  sched_add_job {| job_id := job_id; run_date := scheduled_at;
                   job_arg := PStr post_id |} false ;;;
  log INFO "Rescheduled post %s to %s" [AStr post_id; ATime scheduled_at] ;;;
  ret {| resp_job_id := job_id; resp_post_id := post_id;
         resp_scheduled_at := scheduled_at; resp_status := "rescheduled" |}.

(** ** Sequences of operations on the running service *)

Inductive op : Type :=
| OpCreate (post_id : string) (scheduled_at : instant)
| OpCancel (post_id : string)
| OpReschedule (post_id : string) (scheduled_at : instant)
| OpFire (post_id : string) (env : fire_env)
| OpRecover (env : catchup_env)
| OpDispatched (job_id : string).  (* the dispatcher drops a fired one-shot job *)

(** The state a computation ends in, and what it returns or raises. *)
Definition exec {A} (m : M A) (s : state) : state := snd (m s).
Definition result {A} (m : M A) (s : state) : outcome A := fst (m s).

(** The events a computation adds to the trace. *)
Definition events_of {A} (m : M A) (s : state) : list event :=
  drop (length (trace s)) (trace (exec m s)).

Definition run_op (o : op) (s : state) : state :=
  match o with
  | OpCreate post_id t => exec (create_schedule post_id t) s
  | OpCancel post_id => exec (cancel_schedule post_id) s
  | OpReschedule post_id t => exec (reschedule_post post_id t) s
  | OpFire post_id env => exec (trigger_linkedin_publish post_id env) s
  | OpRecover env => exec (recover_missed_posts env) s
  | OpDispatched id => exec (sched_remove_job id) s
  end.

Definition run_ops (ops : list op) (s : state) : state :=
  fold_left (fun s o => run_op o s) ops s.

End WithRuntime.

(** * Properties: definitions *)

(** ** The job store *)

Definition keys (js : list job) : list string := map job_id js.

(** At most one live job per key. *)
Definition unique_keys (js : list job) : Prop := NoDup (keys js).

(** The number of live jobs under a key. *)
Definition live_count (id : string) (js : list job) : nat :=
  length (filter (fun j => job_id j = id) js).

(** A firing fails when the [try] block raises an [httpx.HTTPError]. *)
Definition firing_fails `{PyRuntime} (post_id : string) (env : fire_env)
           (s : state) (exc : http_error) : Prop :=
  result (publish_attempt post_id env) s = Raised (HTTPError exc).

(** A status update or webhook call succeeds when a 2xx response comes
    back; a network error and a non-2xx response are failures. *)
Definition reply_ok (rp : reply) : bool :=
  match rp with
  | NetworkError _ => false
  | Response r => is_success r
  end.

(** ** A reference runtime

    Enough of the three library functions to run the code on concrete
    inputs: the timestamp layouts [fromisoformat] accepts in every Python
    version that has it,
    [YYYY-MM-DDTHH:MM:SS], an optional fraction of 3 or 6 digits and an
    optional offset [+HH:MM] or [-HH:MM]. *)

Definition digit (c : ascii) : option Z :=
  let n := Z.of_nat (nat_of_ascii c) in
  if (48 <=? n) && (n <=? 57) then Some (n - 48) else None.

Fixpoint digits (cs : list ascii) (acc : Z) : option Z :=
  match cs with
  | [] => Some acc
  | c :: cs' =>
      match digit c with
      | Some v => digits cs' (acc * 10 + v)
      | None => None
      end
  end.

(** Read exactly [n] decimal digits. *)
Definition take_number (n : nat) (cs : list ascii) : option (Z * list ascii) :=
  if Nat.eqb (length (take n cs)) n
  then match digits (take n cs) 0 with
       | Some v => Some (v, drop n cs)
       | None => None
       end
  else None.

(** Read one given character. *)
Definition take_char (c : ascii) (cs : list ascii) : option (list ascii) :=
  match cs with
  | c' :: cs' => if Ascii.eqb c c' then Some cs' else None
  | [] => None
  end.

Definition is_leap (y : Z) : bool :=
  ((y mod 4 =? 0) && negb (y mod 100 =? 0)) || (y mod 400 =? 0).

Definition days_in_month (y m : Z) : Z :=
  if m =? 2 then (if is_leap y then 29 else 28)
  else if (m =? 4) || (m =? 6) || (m =? 9) || (m =? 11) then 30
  else 31.

(** Days from 1970-01-01 to the given civil date (proleptic Gregorian). *)
Definition days_from_civil (y m d : Z) : Z :=
  let y' := if m <=? 2 then y - 1 else y in
  let era := y' / 400 in
  let yoe := y' - era * 400 in
  let mp := (m + 9) mod 12 in
  let doy := (153 * mp + 2) / 5 + d - 1 in
  let doe := yoe * 365 + yoe / 4 - yoe / 100 + doy in
  era * 146097 + doe - 719468.

(** An optional fraction of a second, in microseconds. *)
Definition take_fraction (cs : list ascii) : option (Z * list ascii) :=
  match take_char "." cs with
  | None => Some (0, cs)
  | Some cs1 =>
      match take_number 6 cs1 with
      | Some r => Some r
      | None =>
          match take_number 3 cs1 with
          | Some (ms, cs2) => Some (ms * 1000, cs2)
          | None => None
          end
      end
  end.

(** An optional UTC offset, in microseconds. *)
Definition take_offset (cs : list ascii) : option (option Z) :=
  match cs with
  | [] => Some None
  | sign :: cs1 =>
      '(h, cs2) ← take_number 2 cs1;
      cs3 ← take_char ":" cs2;
      '(m, cs4) ← take_number 2 cs3;
      match cs4 with
      | [] =>
          if (h <? 24) && (m <? 60) then
            let off := timedelta_seconds (h * 3600 + m * 60) in
            if Ascii.eqb sign "+" then Some (Some off)
            else if Ascii.eqb sign "-" then Some (Some (- off))
            else None
          else None
      | _ => None
      end
  end.

Definition reference_fromisoformat (s : string) : option datetime :=
  '(y, cs) ← take_number 4 (list_ascii_of_string s);
  cs ← take_char "-" cs;
  '(mo, cs) ← take_number 2 cs;
  cs ← take_char "-" cs;
  '(d, cs) ← take_number 2 cs;
  cs ← take_char "T" cs;
  '(h, cs) ← take_number 2 cs;
  cs ← take_char ":" cs;
  '(mi, cs) ← take_number 2 cs;
  cs ← take_char ":" cs;
  '(sec, cs) ← take_number 2 cs;
  '(us, cs) ← take_fraction cs;
  off ← take_offset cs;
  if (1 <=? y) && (1 <=? mo) && (mo <=? 12) && (1 <=? d) && (d <=? days_in_month y mo)
     && (h <? 24) && (mi <? 60) && (sec <? 60)
  then Some {| wall := timedelta_seconds
                         (days_from_civil y mo d * 86400 + h * 3600 + mi * 60 + sec)
                       + us;
               tzinfo := off |}
  else None.

Definition reference_str (v : pyval) : string :=
  match v with
  | PNone => "None"
  | PBool true => "True"
  | PBool false => "False"
  | PInt z => pretty z
  | PStr s => s
  | _ => "<object>"
  end.

Definition reference_runtime : PyRuntime :=
  {| fromisoformat := reference_fromisoformat;
     str_other := reference_str;
     status_error_message := fun r => "HTTP status " +:+ pretty (status_code r) |}.

(** Sample inputs. *)

Definition ok_response : response :=
  {| status_code := 200; text := "ok"; json_body := None |}.

Definition env_webhook_down : fire_env :=
  {| publishing_reply := Response ok_response;
     webhook_reply := NetworkError "n8n still down";
     failed_reply := Response ok_response;
     retry_clock := 1700000000000000 |}.

Definition env_status_update_down : fire_env :=
  {| publishing_reply := NetworkError "API down";
     webhook_reply := Response ok_response;
     failed_reply := Response ok_response;
     retry_clock := 1700000000000000 |}.

Definition dquote : string := String (ascii_of_nat 34) EmptyString.

(** A listing answered with [{"posts": null}]. *)
Definition env_wrapped_null : catchup_env :=
  {| clock := 1700000000000000;
     posts_reply :=
       Response {| status_code := 200;
                   text := "{" +:+ dquote +:+ "posts" +:+ dquote +:+ ": null}";
                   json_body := Some (PDict [("posts", PNone)]) |} |}.

(** A listing that cannot be fetched. *)
Definition env_api_down : catchup_env :=
  {| clock := 1700000000000000; posts_reply := NetworkError "API down" |}.

(** A listing answered with the given decoded body. *)
Definition env_listing (now : instant) (body : pyval) : catchup_env :=
  {| clock := now;
     posts_reply :=
       Response {| status_code := 200; text := "[...]"; json_body := Some body |} |}.

(** Candidates: one an hour overdue at 2023-11-14T22:13:20Z, one an
    hour ahead, one without a timestamp, one with a timestamp that does
    not parse. *)
Definition missed_post : pyval :=
  PDict [("id", PStr "missed-1"); ("scheduledAt", PStr "2023-11-14T21:13:20.000Z");
         ("status", PStr "scheduled")].

Definition future_post : pyval :=
  PDict [("id", PStr "future-1"); ("scheduledAt", PStr "2023-11-14T23:13:20.000Z");
         ("status", PStr "scheduled")].

Definition undated_post : pyval :=
  PDict [("id", PStr "undated-1"); ("status", PStr "scheduled")].

Definition garbled_post : pyval :=
  PDict [("id", PStr "garbled-1"); ("scheduledAt", PStr "next tuesday");
         ("status", PStr "scheduled")].

Definition exhausted_state : state :=
  {| jobs := []; retry_counts := {[ "exhaust-post" := 3 ]}; trace := [] |}.

Definition empty_state : state :=
  {| jobs := []; retry_counts := ∅; trace := [] |}.


(** The job a retry enqueues. *)
Definition retry_job (post_id : string) (now : instant) : job :=
  {| job_id := "post-" +:+ post_id;
     run_date := now + timedelta_seconds 120;
     job_arg := PStr post_id |}.

(** ** Catch-up *)

(** The jobs handed to [add_job] in a trace, oldest first. *)
Definition added_jobs (evs : list event) : list job :=
  omap (fun ev => match ev with EvAddJob j _ => Some j | _ => None end) evs.

(** The keys of the [add_job] calls in a trace. *)
Definition added_keys (evs : list event) : list string := keys (added_jobs evs).

(** The job the catch-up enqueues for an identifier. *)
Definition catchup_job `{PyRuntime} (now : instant) (post_id : pyval) : job :=
  {| job_id := "post-" +:+ format_value post_id;
     run_date := now + timedelta_seconds 30;
     job_arg := post_id |}.

(** A candidate that is past due at [now]: a dict with a truthy ["id"]
    whose timestamp field ("scheduledAt", else "scheduled_at") is a
    non-empty string that parses, once every Z is spelled "+00:00", to an
    instant before [now]. *)
Definition past_due `{PyRuntime} (now : instant) (post post_id : pyval) : Prop :=
  exists d raw parsed,
    post = PDict d /\
    dict_get "id" d = post_id /\
    truthy post_id = true /\
    py_or (dict_get "scheduledAt" d) (dict_get "scheduled_at" d) = PStr raw /\
    raw <> "" /\
    fromisoformat (replace_Z raw) = Some parsed /\
    utc_instant (ensure_aware parsed) < now.

(** A candidate that is not yet due at [now]: as [past_due], with a
    parsed instant at or after [now]. *)
Definition not_yet_due `{PyRuntime} (now : instant) (post : pyval) : Prop :=
  exists d raw parsed,
    post = PDict d /\
    truthy (dict_get "id" d) = true /\
    py_or (dict_get "scheduledAt" d) (dict_get "scheduled_at" d) = PStr raw /\
    raw <> "" /\
    fromisoformat (replace_Z raw) = Some parsed /\
    now <= utc_instant (ensure_aware parsed).

Definition is_dict (v : pyval) : Prop := exists d, v = PDict d.

(** A state with more events on its trace. *)
Definition add_events (s : state) (evs : list event) : state :=
  {| jobs := jobs s; retry_counts := retry_counts s; trace := trace s ++ evs |}.

(** The state after the catch-up enqueued a job for [post_id], due at [due]. *)
Definition recovered_state `{PyRuntime} (now : instant) (post_id : pyval)
           (due : instant) (s : state) : state :=
  {| jobs := jobs s ++ [catchup_job now post_id];
     retry_counts := retry_counts s;
     trace := trace s ++
       [EvAddJob (catchup_job now post_id) true;
        EvLog INFO "Recovered missed post %s (was due %s, rescheduled to %s)"
          [AVal post_id; ATime due; ATime (now + timedelta_seconds 30)]] |}.

(** ** Retry Tracker *)

(** Every stored retry count is between 1 and [MAX_RETRIES]. *)
Definition counts_bounded (c : gmap string Z) : Prop :=
  forall k v, c !! k = Some v -> 1 <= v <= MAX_RETRIES.

(** Three firings of one item that all fail at the webhook, and a fourth. *)
Definition three_failures : list op :=
  [OpFire "p1" env_webhook_down; OpFire "p1" env_webhook_down;
   OpFire "p1" env_webhook_down].

(** Four firings of one item that all fail at the webhook. *)
Definition four_failures : list op :=
  [OpFire "p1" env_webhook_down; OpFire "p1" env_webhook_down;
   OpFire "p1" env_webhook_down; OpFire "p1" env_webhook_down].

(** A create, a duplicate create, a reschedule, a failed firing and a
    catch-up, all on one item. *)
Definition busy_day : list op :=
  [OpCreate "missed-1" 1699996400000000;
   OpCreate "missed-1" 1699996400000000;
   OpReschedule "missed-1" 1699996500000000;
   OpFire "missed-1" env_webhook_down;
   OpRecover (env_listing 1700000000000000 (PList [missed_post; future_post]));
   OpDispatched "post-missed-1";
   OpRecover (env_listing 1700000000000000 (PList [missed_post; future_post]))].

(** * The rest of the service *)

Section MoreCode.
Context `{PyRuntime}.

(** ** [routes/schedule.py]: query (lines 94-112)

    [job.next_run_time] of a date-trigger job that has not fired is its
    [run_date]. *)
Definition get_schedule (post_id : string) : M ScheduleResponse :=
  let job_id := job_key post_id in
  job <- sched_get_job job_id ;;
  match job with
  | None =>
      raise (HTTPException 404 ("No schedule found for post " +:+ post_id))
  | Some j =>
      ret {| resp_job_id := job_id; resp_post_id := post_id;
             resp_scheduled_at := run_date j; resp_status := "scheduled" |}
  end.

(** ** [main.py]

    The process around the scheduler: whether it runs, its store of post
    jobs, and the interval job that repeats the catch-up.  The interval
    job sits in the same library store under an id of its own; it is
    kept as a field here (its period in seconds, when registered). *)
Record service : Type := mk_service {
  sched : state;
  running : bool;
  periodic_catchup : option Z
}.

Definition CATCHUP_JOB_ID : string := "catchup-missed-posts".

(** [len(sched.get_jobs())]: the post jobs and the interval job. *)
Definition pending_jobs (a : service) : Z :=
  Z.of_nat (length (jobs (sched a)))
  + match periodic_catchup a with Some _ => 1 | None => 0 end.

Inductive lifespan_outcome : Type :=
| LifespanOk
| LifespanRaised (e : exn)
| SchedulerAlreadyRunningError.

(** [lifespan], up to its [yield] (main.py, lines 20-39). *)
Definition lifespan_startup (env : catchup_env) (a : service) : lifespan_outcome * service :=
  if running a then (SchedulerAlreadyRunningError, a)   (* [sched.start()] *)
  else
    let s0 :=
      exec (log INFO "Scheduler started with %d pending jobs" [AInt (pending_jobs a)])
           (sched a) in
    match recover_missed_posts env s0 with
    | (Raised e, s1) =>
        (LifespanRaised e,
         {| sched := s1; running := true; periodic_catchup := periodic_catchup a |})
    | (Returned recovered, s1) =>
        let s2 :=
          exec (log INFO "Startup catch-up recovered %d post(s)" [AInt recovered] ;;;
                log INFO "Periodic catch-up scheduled every %d seconds"
                    [AInt CATCHUP_INTERVAL_SECONDS])
               s1 in
        (LifespanOk,
         {| sched := s2; running := true;
            periodic_catchup := Some CATCHUP_INTERVAL_SECONDS |})
    end.

Record HealthResponse : Type := mk_HealthResponse {
  health_status : string;
  scheduler_running : bool;
  health_pending_jobs : Z
}.

(** main.py, lines 54-61. *)
Definition health (a : service) : HealthResponse :=
  {| health_status := "healthy"; scheduler_running := running a;
     health_pending_jobs := pending_jobs a |}.

(** A request handler or a job run inside the process. *)
Definition service_run {A} (m : M A) (a : service) : service :=
  {| sched := exec m (sched a); running := running a;
     periodic_catchup := periodic_catchup a |}.

(** ** Consecutive firings of one item *)

Definition fire_each (post_id : string) (envs : list fire_env) (s : state) : state :=
  fold_left (fun s env => exec (trigger_linkedin_publish post_id env) s) envs s.

End MoreCode.

(** The attempt of a firing fails when the status update or, after it,
    the webhook call fails. *)
Definition attempt_fails (env : fire_env) : bool :=
  negb (reply_ok (publishing_reply env) && reply_ok (webhook_reply env)).

(** The events a later state has on top of an earlier one. *)
Definition events_between (s s' : state) : list event :=
  drop (length (trace s)) (trace s').

(** The PATCHes of a trace that report the item as failed. *)
Definition failed_reports (post_id : string) (evs : list event) : list string :=
  omap (fun ev => match ev with
                  | EvPatch p (StatusFailed msg) =>
                      if String.eqb p post_id then Some msg else None
                  | _ => None
                  end) evs.

Definition no_Z (s : string) : Prop := "Z"%char ∉ list_ascii_of_string s.

(** The key a candidate would be enqueued under. *)
Definition candidate_key `{PyRuntime} (post : pyval) : string :=
  "post-" +:+ format_value (match post with PDict d => dict_get "id" d | _ => PNone end).

(** More sample inputs. *)

Definition env_all_ok : fire_env :=
  {| publishing_reply := Response ok_response;
     webhook_reply := Response ok_response;
     failed_reply := Response ok_response;
     retry_clock := 1700000000000000 |}.

Definition env_not_json : catchup_env :=
  {| clock := 1700000000000000;
     posts_reply :=
       Response {| status_code := 200; text := "<html>"; json_body := None |} |}.

Definition mid_retry_state : state :=
  {| jobs := []; retry_counts := {[ "p1" := 2 ]}; trace := [] |}.

Definition one_job_state : state :=
  {| jobs := [ {| job_id := "post-a"; run_date := 1700000000000000;
                  job_arg := PStr "a" |} ];
     retry_counts := ∅; trace := [] |}.

Definition fresh_service : service :=
  {| sched := empty_state; running := false; periodic_catchup := None |}.
(** * Properties: proofs *)

(** ** Running the embedded code *)

Ltac run_code :=
  cbv beta iota zeta delta
    [trigger_linkedin_publish publish_attempt publish_failed
     _schedule_retry _mark_post_failed get_retry_count clear_retry_count
     client_call raise_for_status sched_get_job sched_remove_job sched_add_job
     create_schedule cancel_schedule reschedule_post
     bind ret raise try_except_http emit log
     get_jobs put_jobs get_counts put_counts
     exec result events_of fst snd jobs retry_counts trace
     publishing_reply webhook_reply failed_reply retry_clock].

(** Bring a trace [(t ++ [a]) ++ [b] ...] to the form [t ++ [a; b; ...]]. *)
Ltac flat_trace :=
  repeat rewrite <- app_assoc; cbn [app]; try rewrite drop_app_length.

(** Run the code to the end, splitting on what the remote ends reply,
    on the retry bound and on what the job store holds. *)
Ltac run_cases :=
  run_code;
  repeat match goal with
         | |- context [match ?rp with NetworkError _ => _ | Response _ => _ end] =>
             destruct rp; run_code
         | |- context [is_success ?r] => destruct (is_success r) eqn:?; run_code
         | |- context [?a <? ?b] => destruct (Z.ltb_spec a b); run_code
         | |- context [lookup_job ?k ?js] => destruct (lookup_job k js) eqn:?; run_code
         end.

(** Membership in an explicit trace. *)
Ltac in_trace :=
  repeat first [ apply list_elem_of_here | apply list_elem_of_further ].

(** Walk a hypothesis [ev ∈ e1 :: e2 :: .. :: rest] past the events that
    differ from [ev] by their constructor. *)
Ltac walk_trace Hin :=
  repeat (apply elem_of_cons in Hin as [Hin|Hin]; [try discriminate Hin|]);
  try (apply elem_of_nil in Hin; destruct Hin).

Ltac not_in_trace :=
  rewrite ?not_elem_of_cons; repeat split; try discriminate; try apply not_elem_of_nil.

(** ** The job store *)

Lemma has_id_true id j : has_id id j = true <-> job_id j = id.
Proof. unfold has_id. apply String.eqb_eq. Qed.

Lemma has_id_false id j : has_id id j = false <-> job_id j <> id.
Proof. unfold has_id. apply String.eqb_neq. Qed.

Lemma lookup_job_None id js : lookup_job id js = None <-> id ∉ keys js.
Proof.
  unfold lookup_job, keys. induction js as [|j js IH]; simpl.
  - split; [intros _; apply not_elem_of_nil | done].
  - destruct (has_id id j) eqn:E.
    + apply has_id_true in E. subst id.
      split; [done | intros Hn; exfalso; apply Hn; left].
    + apply has_id_false in E. rewrite IH, not_elem_of_cons.
      split; [intros ?; split; [congruence | done] | by intros [_ ?]].
Qed.

Lemma lookup_job_Some id js j :
  lookup_job id js = Some j -> job_id j = id /\ j ∈ js.
Proof.
  unfold lookup_job. induction js as [|j' js IH]; simpl; [done|].
  destruct (has_id id j') eqn:E.
  - intros [= ->]. apply has_id_true in E. split; [done | left].
  - intros Hf. destruct (IH Hf) as [? ?]. split; [done | by right].
Qed.

Lemma lookup_job_is_Some id js : is_Some (lookup_job id js) <-> id ∈ keys js.
Proof.
  destruct (lookup_job id js) as [j|] eqn:E.
  - split; [intros _ | by eauto].
    destruct (decide (id ∈ keys js)) as [|Hn]; [done|].
    apply lookup_job_None in Hn. congruence.
  - split; [intros [? [=]] | intros Hin]. by apply lookup_job_None in E.
Qed.

Lemma lookup_job_snoc id js j :
  lookup_job id (js ++ [j]) =
  match lookup_job id js with
  | Some x => Some x
  | None => if has_id id j then Some j else None
  end.
Proof.
  unfold lookup_job. induction js as [|j' js IH]; simpl; [done|].
  by destruct (has_id id j').
Qed.

Lemma keys_update_job j js : keys (update_job j js) = keys js.
Proof.
  unfold keys. induction js as [|j' js IH]; simpl; [done|].
  destruct (has_id (job_id j) j') eqn:E; simpl; [|by rewrite IH].
  apply has_id_true in E. by rewrite E.
Qed.

Lemma lookup_update_job_same j js :
  is_Some (lookup_job (job_id j) js) ->
  lookup_job (job_id j) (update_job j js) = Some j.
Proof.
  unfold lookup_job. induction js as [|j' js IH]; simpl; [by intros [? [=]]|].
  destruct (has_id (job_id j) j') eqn:E; simpl.
  - intros _. by rewrite (proj2 (has_id_true (job_id j) j) eq_refl).
  - rewrite E. apply IH.
Qed.

Lemma lookup_update_job_other j js k :
  k <> job_id j -> lookup_job k (update_job j js) = lookup_job k js.
Proof.
  intros Hk. unfold lookup_job. induction js as [|j' js IH]; simpl; [done|].
  destruct (has_id (job_id j) j') eqn:E; simpl.
  - apply has_id_true in E.
    rewrite (proj2 (has_id_false k j)) by congruence.
    by rewrite (proj2 (has_id_false k j')) by congruence.
  - by rewrite IH.
Qed.

Lemma lookup_delete_job_other id js k :
  k <> id -> lookup_job k (delete_job id js) = lookup_job k js.
Proof.
  intros Hk. unfold lookup_job. induction js as [|j' js IH]; simpl; [done|].
  destruct (has_id id j') eqn:E; simpl.
  - apply has_id_true in E.
    by rewrite (proj2 (has_id_false k j')) by congruence.
  - by rewrite IH.
Qed.

Lemma keys_delete_job_subset id js k :
  k ∈ keys (delete_job id js) -> k ∈ keys js.
Proof.
  unfold keys. induction js as [|j' js IH]; simpl; [done|].
  destruct (has_id id j'); simpl.
  - intros ?. by right.
  - rewrite !elem_of_cons. intros [->|?]; [by left | right; by apply IH].
Qed.

Lemma unique_keys_delete_job id js :
  unique_keys js -> unique_keys (delete_job id js).
Proof.
  unfold unique_keys. induction js as [|j' js IH]; simpl; [done|].
  rewrite NoDup_cons. intros [Hn Hd].
  destruct (has_id id j'); simpl; [done|].
  apply NoDup_cons. split; [|by apply IH].
  intros Hin. apply Hn. by eapply keys_delete_job_subset.
Qed.

Lemma lookup_delete_job_same id js :
  unique_keys js -> lookup_job id (delete_job id js) = None.
Proof.
  unfold unique_keys. induction js as [|j' js IH]; simpl; [done|].
  rewrite NoDup_cons. intros [Hn Hd].
  destruct (has_id id j') eqn:E; simpl.
  - apply has_id_true in E. apply lookup_job_None. by rewrite <- E.
  - unfold lookup_job in *. simpl. rewrite E. by apply IH.
Qed.

Lemma unique_keys_snoc js j :
  unique_keys js -> lookup_job (job_id j) js = None -> unique_keys (js ++ [j]).
Proof.
  unfold unique_keys, keys. intros Hd Hn. rewrite map_app. simpl.
  apply NoDup_app. split; [done|]. split; [|apply NoDup_singleton].
  intros x Hx. rewrite list_elem_of_singleton. intros ->.
  by apply lookup_job_None in Hn.
Qed.

Lemma unique_keys_update_job j js :
  unique_keys js -> unique_keys (update_job j js).
Proof. unfold unique_keys. by rewrite keys_update_job. Qed.

Lemma live_count_zero id js : id ∉ keys js -> live_count id js = 0%nat.
Proof.
  unfold live_count, keys. induction js as [|j js IH]; simpl; [done|].
  rewrite not_elem_of_cons. intros [Hne Hn]. rewrite filter_cons.
  rewrite decide_False by congruence. by apply IH.
Qed.

Lemma live_count_pos id js : id ∈ keys js -> (0 < live_count id js)%nat.
Proof.
  unfold live_count, keys. induction js as [|j js IH]; simpl.
  - intros Hin. by apply not_elem_of_nil in Hin.
  - rewrite elem_of_cons, filter_cons. intros [->|Hin].
    + rewrite decide_True by done. simpl. lia.
    + destruct (decide (job_id j = id)); simpl; [lia | by apply IH].
Qed.

(** [unique_keys] says that no key has two live jobs. *)
Lemma unique_keys_live_count js :
  unique_keys js <-> forall id, (live_count id js <= 1)%nat.
Proof.
  induction js as [|j js IH].
  - split; [intros _ id; unfold live_count; simpl; lia | intros _; apply NoDup_nil_2].
  - unfold unique_keys in *. simpl. rewrite NoDup_cons, IH. split.
    + intros [Hn Hall] id. specialize (Hall id).
      unfold live_count in *. rewrite filter_cons.
      destruct (decide (job_id j = id)) as [<-|Hne]; [|done].
      apply live_count_zero in Hn. unfold live_count in Hn. simpl. lia.
    + intros Hall. split.
      * intros Hin. apply live_count_pos in Hin.
        specialize (Hall (job_id j)). unfold live_count in *.
        rewrite filter_cons, decide_True in Hall by done. simpl in Hall. lia.
      * intros id. specialize (Hall id). unfold live_count in *.
        rewrite filter_cons in Hall.
        destruct (decide (job_id j = id)); simpl in Hall; lia.
Qed.

Lemma lookup_job_snoc_same js j :
  lookup_job (job_id j) js = None -> lookup_job (job_id j) (js ++ [j]) = Some j.
Proof.
  intros Hn. rewrite lookup_job_snoc, Hn.
  by rewrite (proj2 (has_id_true (job_id j) j) eq_refl).
Qed.

Lemma lookup_job_snoc_other js j k :
  k <> job_id j -> lookup_job k (js ++ [j]) = lookup_job k js.
Proof.
  intros Hk. rewrite lookup_job_snoc.
  rewrite (proj2 (has_id_false k j)) by congruence.
  by destruct (lookup_job k js).
Qed.

(** Closes the goals on a store built from [update_job], [delete_job]
    and an insertion at the end. *)
Ltac store_solver :=
  cbn [job_id] in *;
  repeat match goal with
         | |- forall _, _ => intro
         | |- lookup_job ?k (update_job ?j _) = Some ?j =>
             apply (lookup_update_job_same j); cbn [job_id]
         | |- lookup_job ?k (_ ++ [?j]) = Some ?j =>
             apply (lookup_job_snoc_same _ j); cbn [job_id]
         | Hl : lookup_job ?k ?js = Some _ |- is_Some (lookup_job ?k ?js) =>
             rewrite Hl; by eexists
         | |- lookup_job _ (update_job _ _) = _ =>
             rewrite lookup_update_job_other by (cbn [job_id]; congruence)
         | |- lookup_job _ (_ ++ [_]) = _ =>
             rewrite lookup_job_snoc_other by (cbn [job_id]; congruence)
         | |- lookup_job _ (delete_job _ _) = _ =>
             rewrite lookup_delete_job_other by congruence
         | |- unique_keys (update_job _ _) => apply unique_keys_update_job
         | |- unique_keys (_ ++ [_]) => apply unique_keys_snoc; cbn [job_id]
         | |- unique_keys (delete_job _ _) => apply unique_keys_delete_job
         | |- _ => done
         end.

(** ** The retry path of a firing *)

Lemma schedule_retry_run post_id n now s :
  exists js' evs,
    _schedule_retry post_id n now s =
      (Returned tt,
       {| jobs := js'; retry_counts := retry_counts s; trace := trace s ++ evs |}) /\
    lookup_job (job_key post_id) js' = Some (retry_job post_id now) /\
    (forall k, k <> job_key post_id -> lookup_job k js' = lookup_job k (jobs s)) /\
    (unique_keys (jobs s) -> unique_keys js') /\
    EvAddJob (retry_job post_id now) true ∈ evs /\
    (forall j b, EvAddJob j b ∈ evs -> j = retry_job post_id now /\ b = true).
Proof.
  destruct s as [js rc tr]. unfold retry_job. run_cases.
  all: try congruence.
  all: unfold job_key, RETRY_DELAY_SECONDS in *.
  all: eexists _, _; split; [flat_trace; reflexivity|].
  all: split_and!.
  all: try solve [in_trace].
  all: try solve [store_solver].
  all: intros ? ?; rewrite ?elem_of_cons, elem_of_nil; intros Hev.
  all: intuition congruence.
Qed.

(** Run a firing down to the calls of [_schedule_retry]. *)
Ltac run_top :=
  cbv beta iota zeta delta
    [trigger_linkedin_publish publish_attempt publish_failed
     _mark_post_failed get_retry_count clear_retry_count
     client_call raise_for_status
     bind ret raise try_except_http emit log
     get_jobs put_jobs get_counts put_counts
     exec result events_of fst snd jobs retry_counts trace
     publishing_reply webhook_reply failed_reply retry_clock].

Ltac run_top_cases :=
  run_top;
  repeat match goal with
         | |- context [match ?rp with NetworkError _ => _ | Response _ => _ end] =>
             destruct rp; run_top
         | |- context [is_success ?r] => destruct (is_success r) eqn:?; run_top
         | |- context [?a <? ?b] => destruct (Z.ltb_spec a b); run_top
         | |- context [_schedule_retry ?p ?n ?t ?s] =>
             let js' := fresh "js'" in
             let evs := fresh "evs" in
             let Hrun := fresh "Hrun" in
             destruct (schedule_retry_run p n t s)
               as (js' & evs & Hrun & ? & ? & ? & ? & ?);
             rewrite Hrun; clear Hrun; run_top
         end.

(** C4. A firing that fails while the retry count is below [MAX_RETRIES]
    returns normally, raises the item's count by exactly one (no other
    count changes), and calls [add_job] once, with [replace_existing=True],
    for the job keyed ["post-" + post_id] whose run date is the clock
    reading plus 120 seconds; that job is then the live job under the key,
    whatever the store held before, and the other keys are untouched. *)
Theorem failed_firing_below_bound_schedules_retry
        `{PyRuntime} (s : state) (post_id : string) (env : fire_env)
        (exc : http_error) :
  default 0 (retry_counts s !! post_id) < MAX_RETRIES ->
  firing_fails post_id env s exc ->
  let count := default 0 (retry_counts s !! post_id) in
  let s' := exec (trigger_linkedin_publish post_id env) s in
  let evs := events_of (trigger_linkedin_publish post_id env) s in
  result (trigger_linkedin_publish post_id env) s = Returned tt /\
  retry_counts s' !! post_id = Some (count + 1) /\
  (forall k, k <> post_id -> retry_counts s' !! k = retry_counts s !! k) /\
  lookup_job ("post-" +:+ post_id) (jobs s')
    = Some (retry_job post_id (retry_clock env)) /\
  run_date (retry_job post_id (retry_clock env))
    = retry_clock env + 120 * 1000000 /\
  (forall k, k <> "post-" +:+ post_id ->
             lookup_job k (jobs s') = lookup_job k (jobs s)) /\
  EvAddJob (retry_job post_id (retry_clock env)) true ∈ evs /\
  (forall j b, EvAddJob j b ∈ evs ->
               j = retry_job post_id (retry_clock env) /\ b = true).
Proof.
  unfold firing_fails. destruct s as [js rc tr], env as [? ? ? ?].
  cbn [retry_counts jobs retry_clock]. intros Hc Hf. revert Hf.
  run_top_cases; try lia; try discriminate.
  all: intros _; flat_trace; unfold job_key in *; cbn [jobs] in *.
  all: split_and!; try done.
  all: try apply lookup_insert_eq.
  all: try (intros; by apply lookup_insert_ne).
  all: try (repeat apply list_elem_of_further; assumption).
  all: intros j b Hin; walk_trace Hin; eauto.
Qed.

Lemma failed_firing_below_bound_witness :
  let s' := exec (trigger_linkedin_publish (H:=reference_runtime)
                    "retry-post" env_webhook_down) empty_state in
  retry_counts s' !! "retry-post" = Some 1 /\
  lookup_job "post-retry-post" (jobs s')
    = Some {| job_id := "post-retry-post";
              run_date := 1700000120000000;
              job_arg := PStr "retry-post" |}.
Proof.
  destruct (failed_firing_below_bound_schedules_retry
              (H:=reference_runtime) empty_state "retry-post" env_webhook_down
              (RequestError "n8n still down"))
    as (_ & Hcount & _ & Hjob & _).
  - vm_compute. reflexivity.
  - vm_compute. reflexivity.
  - split; [exact Hcount | exact Hjob].
Defined.

(** C3. A firing that fails while the retry count equals [MAX_RETRIES]
    returns normally, leaves no Retry Tracker entry for the item, sends
    the PATCH that marks the item "failed" with the message
    "Failed after 4 attempts. Last error: <the error of this firing>",
    and enqueues nothing: the job store is unchanged and no [add_job]
    call is made. *)
Theorem failed_firing_at_bound_marks_failed
        `{PyRuntime} (s : state) (post_id : string) (env : fire_env)
        (exc : http_error) :
  retry_counts s !! post_id = Some MAX_RETRIES ->
  firing_fails post_id env s exc ->
  let s' := exec (trigger_linkedin_publish post_id env) s in
  let evs := events_of (trigger_linkedin_publish post_id env) s in
  result (trigger_linkedin_publish post_id env) s = Returned tt /\
  retry_counts s' !! post_id = None /\
  EvPatch post_id
    (StatusFailed ("Failed after 4 attempts. Last error: " +:+ error_str exc)) ∈ evs /\
  jobs s' = jobs s /\
  (forall j b, EvAddJob j b ∉ evs).
Proof.
  unfold firing_fails. destruct s as [js rc tr]. intros Hc Hf.
  cbn [retry_counts] in Hc. revert Hf.
  destruct env as [? ? ? ?]. run_code. rewrite Hc. cbn [default from_option id].
  run_cases; try (unfold MAX_RETRIES in *; lia); try discriminate.
  all: intros [= <-]; flat_trace.
  all: split_and!; try done; try apply lookup_delete_eq; try solve [in_trace].
  all: intros; not_in_trace.
Qed.

Lemma failed_firing_at_bound_witness :
  EvPatch "exhaust-post"
    (StatusFailed "Failed after 4 attempts. Last error: n8n still down")
  ∈ events_of (trigger_linkedin_publish (H:=reference_runtime)
                 "exhaust-post" env_webhook_down) exhausted_state.
Proof.
  destruct (failed_firing_at_bound_marks_failed
              (H:=reference_runtime) exhausted_state "exhaust-post"
              env_webhook_down (RequestError "n8n still down"))
    as (_ & _ & Hpatch & _).
  - vm_compute. reflexivity.
  - vm_compute. reflexivity.
  - exact Hpatch.
Defined.

(** C2, as stated, fails: when the PATCH that marks the item
    "publishing" meets a network error, the firing never calls the
    webhook. *)
Lemma status_update_failure_counterexample :
  reply_ok (publishing_reply env_status_update_down) = false /\
  ~ (EvWebhook "p1"
     ∈ events_of (trigger_linkedin_publish (H:=reference_runtime)
                    "p1" env_status_update_down) empty_state).
Proof.
  split; [reflexivity|]. vm_compute. intros Hin. walk_trace Hin.
Qed.

(** C2, amended. The status update and the webhook call share one
    [try] block: when the status update fails (network error or non-2xx
    response) the failure is logged at ERROR level, the webhook is not
    called, and the firing counts as failed, so that the retry path
    handles it. *)
Theorem status_update_failure_aborts_attempt
        `{PyRuntime} (s : state) (post_id : string) (env : fire_env) :
  reply_ok (publishing_reply env) = false ->
  let evs := events_of (trigger_linkedin_publish post_id env) s in
  (EvWebhook post_id ∉ evs) /\
  (exists fmt_args,
     EvLog ERROR
       "Failed to trigger n8n for post %s (attempt %d/%d): %s (response_body=%s)"
       fmt_args ∈ evs) /\
  (exists exc, firing_fails post_id env s exc).
Proof.
  unfold firing_fails, reply_ok. destruct s as [js rc tr], env as [pr ? ? ?].
  cbn [publishing_reply].
  run_cases; try discriminate; try congruence.
  all: intros _; flat_trace.
  all: split_and!; try (eexists; reflexivity).
  all: try (eexists; solve [in_trace]).
  all: intros Hin; walk_trace Hin.
Qed.

Lemma status_update_failure_witness :
  reply_ok (publishing_reply env_status_update_down) = false /\
  exists exc,
    firing_fails (H:=reference_runtime) "p1" env_status_update_down
                 exhausted_state exc.
Proof.
  split; [reflexivity|].
  apply (status_update_failure_aborts_attempt
           (H:=reference_runtime) exhausted_state "p1" env_status_update_down).
  reflexivity.
Defined.

(** The other half: once the status update succeeded the webhook is
    called. *)
Lemma status_update_success_calls_webhook
      `{PyRuntime} (s : state) (post_id : string) (env : fire_env) :
  reply_ok (publishing_reply env) = true ->
  EvWebhook post_id ∈ events_of (trigger_linkedin_publish post_id env) s.
Proof.
  unfold reply_ok. destruct s as [js rc tr], env as [pr ? ? ?].
  cbn [publishing_reply].
  run_cases; try discriminate; try congruence.
  all: intros _; flat_trace; try solve [in_trace].
Qed.

(** What a firing does to the state, whatever the remote ends reply: it
    returns normally; the Retry Tracker either loses the item's entry or
    has the item's count, which was below the bound, raised by one. *)
Lemma trigger_run `{PyRuntime} (post_id : string) (env : fire_env) (s : state) :
  exists js' rc' evs,
    trigger_linkedin_publish post_id env s =
      (Returned tt, {| jobs := js'; retry_counts := rc'; trace := trace s ++ evs |}) /\
    (unique_keys (jobs s) -> unique_keys js') /\
    (rc' = delete post_id (retry_counts s) \/
     (default 0 (retry_counts s !! post_id) < MAX_RETRIES /\
      rc' = <[post_id := default 0 (retry_counts s !! post_id) + 1]> (retry_counts s))).
Proof.
  destruct s as [js rc tr], env as [? ? ? ?].
  run_top_cases.
  all: eexists _, _, _; split; [flat_trace; reflexivity|].
  all: cbn [jobs retry_counts] in *; split; [done|]; auto.
Qed.

(** ** The catch-up loop *)

Ltac run_catchup :=
  cbv beta iota zeta delta
    [recover_post sched_get_job sched_add_job
     bind ret raise try_except_http emit log
     get_jobs put_jobs get_counts put_counts
     exec result events_of fst snd jobs retry_counts trace].

Lemma add_events_nil s : add_events s [] = s.
Proof. destruct s. unfold add_events. simpl. by rewrite app_nil_r. Qed.

Lemma truthy_PStr raw : truthy (PStr raw) = true <-> raw <> "".
Proof.
  simpl. rewrite negb_true_iff. apply String.eqb_neq.
Qed.

(** One pass of the loop body: it raises on a candidate that is not a
    dict; or it skips, adding no job; or the candidate is past due, its
    key has no live job, and the job is enqueued and counted. *)
Lemma recover_post_cases `{PyRuntime} now post r s :
  (recover_post now post r s = (Raised AttributeError, s) /\
   forall d, post <> PDict d) \/
  (exists evs,
     recover_post now post r s = (Returned r, add_events s evs) /\
     added_jobs evs = [] /\
     forall pid, past_due now post pid ->
                 is_Some (lookup_job ("post-" +:+ format_value pid) (jobs s))) \/
  (exists pid due,
     past_due now post pid /\
     lookup_job ("post-" +:+ format_value pid) (jobs s) = None /\
     recover_post now post r s = (Returned (r + 1), recovered_state now pid due s)).
Proof.
  destruct s as [js rc tr]. cbn [jobs].
  destruct post as [| | | | |l|d]; try (left; split; [reflexivity | congruence]).
  right.
  assert (forall pid (P : Prop),
            (forall raw parsed,
                dict_get "id" d = pid -> truthy pid = true ->
                py_or (dict_get "scheduledAt" d) (dict_get "scheduled_at" d) = PStr raw ->
                raw <> "" -> fromisoformat (replace_Z raw) = Some parsed ->
                utc_instant (ensure_aware parsed) < now -> P) ->
            past_due now (PDict d) pid -> P) as Hpd.
  { intros pid P HP (d' & raw & parsed & [= <-] & ? & ? & ? & ? & ? & ?). eauto. }
  unfold recover_post.
  set (post_id := dict_get "id" d) in *.
  set (raw := py_or (dict_get "scheduledAt" d) (dict_get "scheduled_at" d)) in *.
  destruct (truthy post_id) eqn:Hid; cbn [negb orb].
  2:{ left. exists []. rewrite add_events_nil. split_and!; try done.
      intros pid. apply Hpd. intros. subst pid. congruence. }
  destruct (truthy raw) eqn:Hraw; cbn [negb].
  2:{ left. exists []. rewrite add_events_nil. split_and!; try done.
      intros pid. apply Hpd. intros ? ? ? ? Hr Hne. rewrite Hr in Hraw.
      apply truthy_PStr in Hne. congruence. }
  destruct raw as [| | | |str| |] eqn:Eraw;
    try (left; exists []; rewrite add_events_nil; split_and!; try done;
         intros pid; apply Hpd; intros; congruence).
  destruct (fromisoformat (replace_Z str)) as [parsed|] eqn:Hparse.
  2:{ left. eexists [_]. split_and!; try done.
      intros pid. apply Hpd. intros ? ? ? ? [= <-]. congruence. }
  destruct (Z.geb_spec (utc_instant (ensure_aware parsed)) now) as [Hge|Hlt].
  { left. exists []. rewrite add_events_nil. split_and!; try done.
    intros pid. apply Hpd. intros ? ? ? ? [= <-] ? ? ?.
    assert (parsed0 = parsed) by congruence. subst. lia. }
  destruct (lookup_job ("post-" +:+ format_value post_id) js) as [j|] eqn:Hlook.
  - left. eexists [_]. split_and!.
    + run_catchup. rewrite Hlook. reflexivity.
    + done.
    + intros pid. apply Hpd. intros; subst pid. rewrite Hlook. by eexists.
  - right. exists post_id, (utc_instant (ensure_aware parsed)). split_and!.
    + exists d, str, parsed. split_and!; try done. by apply truthy_PStr.
    + done.
    + run_catchup. rewrite Hlook. unfold recovered_state, catchup_job. cbn [job_id].
      rewrite Hlook. run_catchup. flat_trace. reflexivity.
Qed.

Lemma added_jobs_app evs1 evs2 :
  added_jobs (evs1 ++ evs2) = added_jobs evs1 ++ added_jobs evs2.
Proof. unfold added_jobs. apply omap_app. Qed.

Lemma added_keys_app evs1 evs2 :
  added_keys (evs1 ++ evs2) = added_keys evs1 ++ added_keys evs2.
Proof. unfold added_keys, keys. by rewrite added_jobs_app, map_app. Qed.

Lemma keys_app js1 js2 : keys (js1 ++ js2) = keys js1 ++ keys js2.
Proof. unfold keys. apply map_app. Qed.

Lemma added_jobs_elem j evs :
  j ∈ added_jobs evs <-> exists b, EvAddJob j b ∈ evs.
Proof.
  unfold added_jobs. rewrite list_elem_of_omap. split.
  - intros (ev & Hin & Hev). destruct ev; try discriminate.
    injection Hev as ->. eauto.
  - intros (b & Hin). eexists. split; [exact Hin | done].
Qed.

(** The whole loop: the store grows by exactly the jobs handed to
    [add_job]; their keys are pairwise distinct and were not live
    before; each of them belongs to a past-due candidate; the count
    grows by their number; and when the loop gets to its end every
    past-due candidate has a live job. *)
Lemma for_posts_run `{PyRuntime} now posts :
  forall r s,
  exists o evs,
    for_posts now posts r s =
      (o, {| jobs := jobs s ++ added_jobs evs;
             retry_counts := retry_counts s;
             trace := trace s ++ evs |}) /\
    NoDup (added_keys evs) /\
    (forall k, k ∈ added_keys evs -> k ∉ keys (jobs s)) /\
    (forall j b, EvAddJob j b ∈ evs ->
       b = true /\
       exists post pid, post ∈ posts /\ past_due now post pid /\ j = catchup_job now pid) /\
    (forall n, o = Returned n -> n = r + Z.of_nat (length (added_jobs evs))) /\
    (forall n, o = Returned n ->
       forall post pid, post ∈ posts -> past_due now post pid ->
         "post-" +:+ format_value pid ∈ keys (jobs s ++ added_jobs evs)).
Proof.
  induction posts as [|post rest IH]; intros r s.
  - exists (Returned r), []. destruct s as [js rc tr]. cbn.
    rewrite !app_nil_r. split_and!; try done.
    + apply NoDup_nil_2.
    + intros k Hk. by apply elem_of_nil in Hk.
    + intros j b Hin. by apply elem_of_nil in Hin.
    + intros n [= <-]. lia.
    + intros n _ post pid Hin. by apply elem_of_nil in Hin.
  - cbn [for_posts]. unfold bind at 1.
    destruct (recover_post_cases now post r s)
      as [[Hrun Hnot] | [(evs0 & Hrun & Hnone & Hlive) | (pid & due & Hdue & Hfree & Hrun)]];
      rewrite Hrun.
    + (* the candidate is not a dict *)
      exists (Raised AttributeError), []. destruct s as [js rc tr]. cbn.
      rewrite !app_nil_r. split_and!; try done.
      * apply NoDup_nil_2.
      * intros k Hk. by apply elem_of_nil in Hk.
      * intros j b Hin. by apply elem_of_nil in Hin.
    + (* skipped *)
      destruct (IH r (add_events s evs0))
        as (o & evs1 & Hrest & Hnd & Hfresh & Hjobs & Hcount & Hall).
      exists o, (evs0 ++ evs1). cbn [add_events jobs retry_counts trace] in *.
      rewrite added_keys_app, added_jobs_app. unfold added_keys at 1 3.
      rewrite Hnone. cbn [keys map app].
      split_and!; try done.
      * rewrite Hrest. by rewrite app_assoc.
      * intros j b Hin. apply elem_of_app in Hin as [Hin|Hin].
        -- assert (j ∈ added_jobs evs0) as Hj by (apply added_jobs_elem; eauto).
           rewrite Hnone in Hj. by apply elem_of_nil in Hj.
        -- destruct (Hjobs j b Hin) as (-> & p & pid & Hp & Hpd & ->).
           split; [done|]. exists p, pid. split_and!; try done. by right.
      * intros n Hn p pid Hp Hpd. apply elem_of_cons in Hp as [->|Hp].
        -- rewrite keys_app. apply elem_of_app. left.
           apply lookup_job_is_Some. by apply Hlive.
        -- by eapply Hall.
    + (* recovered *)
      destruct (IH (r + 1) (recovered_state now pid due s))
        as (o & evs1 & Hrest & Hnd & Hfresh & Hjobs & Hcount & Hall).
      cbn [recovered_state jobs retry_counts trace] in *.
      exists o, (EvAddJob (catchup_job now pid) true
                 :: EvLog INFO "Recovered missed post %s (was due %s, rescheduled to %s)"
                      [AVal pid; ATime due; ATime (now + timedelta_seconds 30)]
                 :: evs1).
      change (added_jobs (EvAddJob (catchup_job now pid) true :: _ :: evs1))
        with (catchup_job now pid :: added_jobs evs1).
      unfold added_keys in *. cbn [keys map catchup_job job_id] in *.
      split_and!.
      * rewrite Hrest. rewrite <- !app_assoc. reflexivity.
      * apply NoDup_cons. split; [|done].
        intros Hin. apply Hfresh in Hin. apply Hin.
        rewrite keys_app. apply elem_of_app. right. cbn. left.
      * intros k Hk. apply elem_of_cons in Hk as [->|Hk].
        -- by apply lookup_job_None.
        -- intros Hin. apply (Hfresh k Hk). rewrite keys_app.
           apply elem_of_app. by left.
      * intros j b Hin. apply elem_of_cons in Hin as [[= -> ->]|Hin].
        { split; [done|]. exists post, pid. split_and!; try done. left. }
        apply elem_of_cons in Hin as [?|Hin]; [discriminate|].
        destruct (Hjobs j b Hin) as (-> & p & pid' & Hp & Hpd & ->).
        split; [done|]. exists p, pid'. split_and!; try done. by right.
      * intros n Hn. rewrite (Hcount n Hn). cbn [length]. lia.
      * intros n Hn p pid' Hp Hpd. apply elem_of_cons in Hp as [->|Hp].
        -- assert (pid' = pid) as ->.
           { destruct Hpd as (d1 & ? & ? & Hp1 & <- & _).
             destruct Hdue as (d2 & ? & ? & Hp2 & <- & _).
             rewrite Hp1 in Hp2. by injection Hp2 as ->. }
           rewrite keys_app. apply elem_of_app. right. cbn. left.
        -- specialize (Hall n Hn p pid' Hp Hpd).
           rewrite <- app_assoc in Hall. exact Hall.
Qed.

(** ** The catch-up as a whole *)

Ltac run_recover :=
  cbv beta iota zeta delta
    [recover_missed_posts client_call raise_for_status response_json
     bind ret raise try_except_http emit log
     exec result events_of fst snd jobs retry_counts trace
     clock posts_reply].

Lemma run_components {A} (m : M A) (s : state) o js rc evs :
  m s = (o, {| jobs := js; retry_counts := rc; trace := trace s ++ evs |}) ->
  result m s = o /\ jobs (exec m s) = js /\ retry_counts (exec m s) = rc /\
  events_of m s = evs.
Proof.
  unfold events_of, result, exec. intros ->. cbn [fst snd jobs retry_counts trace].
  by rewrite drop_app_length.
Qed.

(** A listing that cannot be fetched: the error is logged and 0 returned. *)
Lemma fetch_failure_run `{PyRuntime} (env : catchup_env) (s : state) :
  reply_ok (posts_reply env) = false ->
  exists exc,
    recover_missed_posts env s =
      (Returned 0,
       add_events s
         [EvGetPosts;
          EvLog ERROR "Failed to fetch scheduled posts for catch-up: %s" [AExc exc]]).
Proof.
  destruct env as [now [msg|r]], s as [js rc tr]; cbn [posts_reply reply_ok].
  - intros _. eexists. run_recover. unfold add_events.
    cbn [jobs retry_counts trace]. flat_trace. reflexivity.
  - intros Hfail. eexists. run_recover. rewrite Hfail. run_recover.
    unfold add_events. cbn [jobs retry_counts trace]. flat_trace. reflexivity.
Qed.

(** C5. When the listing cannot be fetched (network error or non-2xx
    response) [recover_missed_posts] returns 0 and raises nothing; it
    logs the error and touches neither the job store nor the Retry
    Tracker. *)
Theorem fetch_failure_returns_zero `{PyRuntime} (env : catchup_env) (s : state) :
  reply_ok (posts_reply env) = false ->
  result (recover_missed_posts env) s = Returned 0 /\
  jobs (exec (recover_missed_posts env) s) = jobs s /\
  retry_counts (exec (recover_missed_posts env) s) = retry_counts s /\
  exists exc,
    events_of (recover_missed_posts env) s =
      [EvGetPosts;
       EvLog ERROR "Failed to fetch scheduled posts for catch-up: %s" [AExc exc]].
Proof.
  intros Hfail. destruct (fetch_failure_run env s Hfail) as [exc Hrun].
  unfold add_events in Hrun.
  apply run_components in Hrun as (Hres & Hjobs & Hcounts & Hevs).
  split_and!; try done. by exists exc.
Qed.

Lemma fetch_failure_witness :
  result (recover_missed_posts (H:=reference_runtime) env_api_down) exhausted_state
  = Returned 0.
Proof.
  apply (fetch_failure_returns_zero (H:=reference_runtime) env_api_down exhausted_state).
  reflexivity.
Defined.

Lemma iterate_cases posts :
  (exists l, iterate posts = ret l) \/ iterate posts = raise TypeError.
Proof. destruct posts; simpl; eauto. Qed.

(** What the catch-up does once the listing has been fetched and decoded. *)
Lemma recover_listing_unfold `{PyRuntime} env s r body :
  posts_reply env = Response r -> is_success r = true -> json_body r = Some body ->
  recover_missed_posts env s =
    (candidates <- iterate (unwrap_posts body) ;;
     recovered <- for_posts (clock env) candidates 0 ;;
     (if negb (recovered =? 0)
      then log INFO "Catch-up complete: recovered %d missed post(s)" [AInt recovered]
      else log INFO "Catch-up complete: no missed posts found" []) ;;;
     ret recovered) (add_events s [EvGetPosts]).
Proof.
  destruct env as [now rp], s as [js rc tr]. cbn [posts_reply clock].
  intros -> Hok Hbody. run_recover. rewrite Hok. run_recover.
  rewrite Hbody. reflexivity.
Qed.

Lemma added_jobs_framed evs tail :
  added_jobs tail = [] ->
  added_jobs (EvGetPosts :: evs ++ tail) = added_jobs evs.
Proof.
  intros Ht. change (EvGetPosts :: evs ++ tail) with ([EvGetPosts] ++ evs ++ tail).
  rewrite !added_jobs_app, Ht. cbn. by rewrite app_nil_r.
Qed.

Lemma add_job_framed j b evs tail :
  added_jobs tail = [] ->
  EvAddJob j b ∈ EvGetPosts :: evs ++ tail -> EvAddJob j b ∈ evs.
Proof.
  intros Ht Hin. apply elem_of_cons in Hin as [?|Hin]; [discriminate|].
  apply elem_of_app in Hin as [Hin|Hin]; [done|].
  assert (j ∈ added_jobs tail) as Hj by (apply added_jobs_elem; eauto).
  rewrite Ht in Hj. by apply elem_of_nil in Hj.
Qed.

(** The catch-up over a listing that yields the candidates [posts]. *)
Lemma recover_listing_run `{PyRuntime} env s r body posts :
  posts_reply env = Response r -> is_success r = true -> json_body r = Some body ->
  iterate (unwrap_posts body) = ret posts ->
  exists o evs,
    recover_missed_posts env s =
      (o, {| jobs := jobs s ++ added_jobs evs;
             retry_counts := retry_counts s;
             trace := trace s ++ evs |}) /\
    NoDup (added_keys evs) /\
    (forall k, k ∈ added_keys evs -> k ∉ keys (jobs s)) /\
    (forall j b, EvAddJob j b ∈ evs ->
       b = true /\
       exists post pid,
         post ∈ posts /\ past_due (clock env) post pid /\ j = catchup_job (clock env) pid) /\
    (forall n, o = Returned n -> n = Z.of_nat (length (added_jobs evs))) /\
    (forall n, o = Returned n ->
       forall post pid, post ∈ posts -> past_due (clock env) post pid ->
         "post-" +:+ format_value pid ∈ keys (jobs s ++ added_jobs evs)).
Proof.
  intros Hrp Hok Hbody Hiter.
  rewrite (recover_listing_unfold env s r body Hrp Hok Hbody).
  unfold bind at 1. rewrite Hiter. cbn [ret]. unfold bind at 1.
  destruct (for_posts_run (clock env) posts 0 (add_events s [EvGetPosts]))
    as (o & evs1 & Hrun & Hnd & Hfresh & Hjobs & Hcount & Hall).
  rewrite Hrun. cbn [add_events jobs retry_counts trace] in *.
  destruct o as [n|e].
  - set (tail := if negb (n =? 0)
                 then [EvLog INFO "Catch-up complete: recovered %d missed post(s)" [AInt n]]
                 else [EvLog INFO "Catch-up complete: no missed posts found" []]).
    assert (added_jobs tail = []) as Htail by (subst tail; by destruct (negb _)).
    exists (Returned n), (EvGetPosts :: evs1 ++ tail).
    unfold added_keys in *. rewrite (added_jobs_framed _ _ Htail).
    split_and!; try done.
    + subst tail. destruct (negb (n =? 0)); run_recover; flat_trace; reflexivity.
    + intros j b Hin. apply (Hjobs j b). by eapply add_job_framed.
  - exists (Raised e), (EvGetPosts :: evs1 ++ []).
    unfold added_keys in *. rewrite (added_jobs_framed evs1 [] eq_refl).
    split_and!; try done.
    + rewrite app_nil_r. flat_trace. reflexivity.
    + intros j b Hin. apply (Hjobs j b). by apply (add_job_framed j b evs1 []).
Qed.

Lemma lookup_job_app k js1 js2 :
  lookup_job k (js1 ++ js2) =
  match lookup_job k js1 with
  | Some j => Some j
  | None => lookup_job k js2
  end.
Proof.
  unfold lookup_job. induction js1 as [|j js1 IH]; simpl; [done|].
  by destruct (has_id k j).
Qed.

Lemma unique_keys_app js1 js2 :
  unique_keys js1 -> NoDup (keys js2) ->
  (forall k, k ∈ keys js2 -> k ∉ keys js1) ->
  unique_keys (js1 ++ js2).
Proof.
  unfold unique_keys. intros H1 H2 Hdisj. rewrite keys_app.
  apply NoDup_app. split_and!; try done.
  intros k Hk1 Hk2. by apply (Hdisj k).
Qed.

(** A candidate that is not yet due is passed over: no job, no count,
    no log record. *)
Lemma recover_post_not_yet_due `{PyRuntime} now post r s :
  not_yet_due now post -> recover_post now post r s = (Returned r, s).
Proof.
  intros (d & raw & parsed & -> & Hid & Hraw & Hne & Hparse & Hdue).
  unfold recover_post. rewrite Hid, Hraw.
  rewrite (proj2 (truthy_PStr raw) Hne). cbn [negb orb].
  rewrite Hparse. by rewrite (proj2 (Z.geb_le _ _) Hdue).
Qed.

(** The loop gets to its end exactly when every candidate is a dict. *)
Lemma for_posts_returns `{PyRuntime} now posts :
  forall r s,
    (exists n, result (for_posts now posts r) s = Returned n) <-> Forall is_dict posts.
Proof.
  induction posts as [|post rest IH]; intros r s.
  - split; [intros _; constructor | intros _; by exists r].
  - unfold result in *. cbn [for_posts]. unfold bind at 1.
    destruct (recover_post_cases now post r s)
      as [[Hrun Hnot] | [(evs0 & Hrun & _) | (pid & due & Hdue & _ & Hrun)]];
      rewrite Hrun.
    + split; [by intros [n [=]]|]. intros Hall.
      apply Forall_cons in Hall as [[d Hd] _]. by destruct (Hnot d).
    + rewrite IH. split.
      * intros Hall. constructor; [|done].
        destruct post as [| | | | | |d];
          [unfold recover_post in Hrun; discriminate .. | by exists d].
      * by intros [_ ?]%Forall_cons.
    + rewrite IH. split.
      * intros Hall. constructor; [|done].
        destruct Hdue as (d & _ & _ & -> & _). by exists d.
      * by intros [_ ?]%Forall_cons.
Qed.

(** The catch-up, whatever the system of record replies: the store
    grows by exactly the jobs handed to [add_job], all of them with
    [replace_existing=True] and a run date 30 seconds after the clock
    reading, under pairwise distinct keys that were not live; the Retry
    Tracker is untouched; a returned count is the number of those jobs. *)
Lemma recover_missed_posts_run `{PyRuntime} env s :
  exists o evs,
    recover_missed_posts env s =
      (o, {| jobs := jobs s ++ added_jobs evs;
             retry_counts := retry_counts s;
             trace := trace s ++ evs |}) /\
    NoDup (added_keys evs) /\
    (forall k, k ∈ added_keys evs -> k ∉ keys (jobs s)) /\
    (forall j b, EvAddJob j b ∈ evs ->
       b = true /\ run_date j = clock env + timedelta_seconds 30) /\
    (forall n, o = Returned n -> n = Z.of_nat (length (added_jobs evs))).
Proof.
  assert (forall o (evs : list event),
            recover_missed_posts env s = (o, add_events s evs) ->
            added_jobs evs = [] -> (forall n, o = Returned n -> n = 0) ->
            exists o evs,
              recover_missed_posts env s =
                (o, {| jobs := jobs s ++ added_jobs evs;
                       retry_counts := retry_counts s;
                       trace := trace s ++ evs |}) /\
              NoDup (added_keys evs) /\
              (forall k, k ∈ added_keys evs -> k ∉ keys (jobs s)) /\
              (forall j b, EvAddJob j b ∈ evs ->
                 b = true /\ run_date j = clock env + timedelta_seconds 30) /\
              (forall n, o = Returned n -> n = Z.of_nat (length (added_jobs evs))))
    as Hquiet.
  { intros o evs Hrun Hnone Hzero. exists o, evs.
    unfold added_keys. rewrite Hnone, app_nil_r. split_and!.
    - exact Hrun.
    - apply NoDup_nil_2.
    - intros k Hk. by apply elem_of_nil in Hk.
    - intros j b Hin. assert (j ∈ added_jobs evs) as Hj by (apply added_jobs_elem; eauto).
      rewrite Hnone in Hj. by apply elem_of_nil in Hj.
    - intros n Hn. rewrite (Hzero n Hn). done. }
  destruct (posts_reply env) as [msg|r] eqn:Hrp.
  { destruct env as [now rp], s as [js rc tr]. cbn [posts_reply] in Hrp. subst rp.
    eapply (Hquiet (Returned 0) [_; _]).
    - run_recover. unfold add_events. cbn [jobs retry_counts trace].
      flat_trace. reflexivity.
    - done.
    - by intros n [= <-]. }
  destruct (is_success r) eqn:Hok.
  2:{ destruct env as [now rp], s as [js rc tr]. cbn [posts_reply] in Hrp. subst rp.
      eapply (Hquiet (Returned 0) [_; _]).
      - run_recover. rewrite Hok. run_recover. unfold add_events.
        cbn [jobs retry_counts trace]. flat_trace. reflexivity.
      - done.
      - by intros n [= <-]. }
  destruct (json_body r) as [body|] eqn:Hbody.
  2:{ destruct env as [now rp], s as [js rc tr]. cbn [posts_reply] in Hrp. subst rp.
      eapply (Hquiet (Raised JSONDecodeError) [_]).
      - run_recover. rewrite Hok. run_recover. rewrite Hbody. reflexivity.
      - done.
      - by intros n [=]. }
  destruct (iterate_cases (unwrap_posts body)) as [[posts Hiter]|Hiter].
  - destruct (recover_listing_run env s r body posts Hrp Hok Hbody Hiter)
      as (o & evs & Hrun & Hnd & Hfresh & Hjobs & Hcount & _).
    exists o, evs. split_and!; try done.
    intros j b Hin. destruct (Hjobs j b Hin) as (-> & _ & pid & _ & _ & ->). done.
  - eapply (Hquiet (Raised TypeError) [_]).
    + rewrite (recover_listing_unfold env s r body Hrp Hok Hbody).
      unfold bind at 1. rewrite Hiter. reflexivity.
    + done.
    + by intros n [=].
Qed.

(** C6. Over a listing that decodes to the candidates [posts] (a bare
    list, or a list wrapped under "posts"), when the catch-up returns
    [n]: [n] is the number of [add_job] calls, whose jobs are exactly
    what the store gained, under pairwise distinct keys; every past-due
    candidate whose key had no live job is among them, and its key then
    holds a live job due 30 seconds after the clock reading; every job
    enqueued belongs to a past-due candidate; and the pass over a
    candidate that is not yet due changes neither the state nor the
    count. *)
Theorem catchup_enqueues_past_due_candidates
        `{PyRuntime} (env : catchup_env) (s : state) (r : response)
        (body : pyval) (posts : list pyval) (n : Z) :
  posts_reply env = Response r -> is_success r = true ->
  json_body r = Some body -> unwrap_posts body = PList posts ->
  result (recover_missed_posts env) s = Returned n ->
  let now := clock env in
  let s' := exec (recover_missed_posts env) s in
  let evs := events_of (recover_missed_posts env) s in
  n = Z.of_nat (length (added_jobs evs)) /\
  jobs s' = jobs s ++ added_jobs evs /\
  NoDup (added_keys evs) /\
  (forall post pid,
     post ∈ posts -> past_due now post pid ->
     lookup_job ("post-" +:+ format_value pid) (jobs s) = None ->
     "post-" +:+ format_value pid ∈ added_keys evs /\
     exists j, lookup_job ("post-" +:+ format_value pid) (jobs s') = Some j /\
               run_date j = now + 30 * 1000000) /\
  (forall j b,
     EvAddJob j b ∈ evs ->
     exists post pid, post ∈ posts /\ past_due now post pid /\ j = catchup_job now pid) /\
  (forall post r0 s0,
     not_yet_due now post -> recover_post now post r0 s0 = (Returned r0, s0)).
Proof.
  intros Hrp Hok Hbody Hshape Hres.
  assert (iterate (unwrap_posts body) = ret posts) as Hiter by (by rewrite Hshape).
  destruct (recover_listing_run env s r body posts Hrp Hok Hbody Hiter)
    as (o & evs & Hrun & Hnd & Hfresh & Hjobs & Hcount & Hall).
  apply run_components in Hrun as (Ho & Hjs & _ & Hevs).
  cbv zeta. rewrite Hjs, Hevs. rewrite Ho in Hres. subst o.
  split_and!; try done.
  - by apply Hcount.
  - intros post pid Hin Hdue Hfree.
    specialize (Hall n eq_refl post pid Hin Hdue).
    rewrite keys_app in Hall. apply elem_of_app in Hall as [Hlive|Hadded].
    { apply lookup_job_None in Hfree. by destruct Hfree. }
    split; [exact Hadded|].
    rewrite lookup_job_app, Hfree.
    apply lookup_job_is_Some in Hadded as [j Hj].
    exists j. split; [done|].
    apply lookup_job_Some in Hj as [_ Hj].
    apply added_jobs_elem in Hj as [b Hj].
    destruct (Hjobs j b Hj) as (_ & _ & pid' & _ & _ & ->).
    unfold catchup_job, timedelta_seconds. cbn. lia.
  - intros j b Hin. destruct (Hjobs j b Hin) as (_ & Hex). exact Hex.
  - intros post r0 s0. apply recover_post_not_yet_due.
Qed.

Lemma catchup_enqueues_past_due_witness :
  let env := env_listing 1700000000000000 (PList [missed_post; future_post]) in
  result (recover_missed_posts (H:=reference_runtime) env) empty_state = Returned 1 /\
  lookup_job "post-missed-1"
             (jobs (exec (recover_missed_posts (H:=reference_runtime) env) empty_state))
  = Some {| job_id := "post-missed-1"; run_date := 1700000030000000;
            job_arg := PStr "missed-1" |} /\
  1 = Z.of_nat (length (added_jobs
        (events_of (recover_missed_posts (H:=reference_runtime) env) empty_state))).
Proof.
  cbv zeta. split; [vm_compute; reflexivity|]. split; [vm_compute; reflexivity|].
  refine (proj1 (catchup_enqueues_past_due_candidates
                   (H:=reference_runtime)
                   (env_listing 1700000000000000 (PList [missed_post; future_post]))
                   empty_state _ _ [missed_post; future_post] 1
                   eq_refl _ eq_refl eq_refl _)).
  - vm_compute. reflexivity.
  - vm_compute. reflexivity.
Defined.

Lemma recover_listing_returns `{PyRuntime} env s r body posts :
  posts_reply env = Response r -> is_success r = true -> json_body r = Some body ->
  iterate (unwrap_posts body) = ret posts ->
  (exists n, result (recover_missed_posts env) s = Returned n) <-> Forall is_dict posts.
Proof.
  intros Hrp Hok Hbody Hiter.
  rewrite <- (for_posts_returns (clock env) posts 0 (add_events s [EvGetPosts])).
  unfold result. rewrite (recover_listing_unfold env s r body Hrp Hok Hbody).
  unfold bind at 1. rewrite Hiter. cbn [ret]. unfold bind at 1.
  destruct (for_posts (clock env) posts 0 (add_events s [EvGetPosts])) as [[n|e] s1].
  - split; intros _; [by exists n|]. exists n.
    destruct (negb (n =? 0)); reflexivity.
  - cbn. split; by intros [n [=]].
Qed.

(** C7. Two catch-ups in a row over the same listing.  A key with a
    live job is skipped: the first call does not enqueue it and leaves
    its job as it is; a returned count is the number of keys enqueued;
    over both calls no key is enqueued twice; and when the second call
    reads the same clock as a first call that returned, it enqueues
    nothing, returns 0 and leaves the store as it is. *)
Theorem catchup_twice_recovers_once
        `{PyRuntime} (env1 env2 : catchup_env) (s : state) :
  posts_reply env2 = posts_reply env1 ->
  let s1 := exec (recover_missed_posts env1) s in
  let evs1 := events_of (recover_missed_posts env1) s in
  let evs2 := events_of (recover_missed_posts env2) s1 in
  (forall k j, lookup_job k (jobs s) = Some j ->
               (k ∉ added_keys evs1) /\ lookup_job k (jobs s1) = Some j) /\
  (forall n, result (recover_missed_posts env1) s = Returned n ->
             n = Z.of_nat (length (added_keys evs1))) /\
  NoDup (added_keys evs1 ++ added_keys evs2) /\
  (clock env2 = clock env1 ->
   forall n, result (recover_missed_posts env1) s = Returned n ->
     result (recover_missed_posts env2) s1 = Returned 0 /\
     added_keys evs2 = [] /\
     jobs (exec (recover_missed_posts env2) s1) = jobs s1).
Proof.
  intros Hsame. cbv zeta.
  destruct (recover_missed_posts_run env1 s)
    as (o1 & evs1 & Hrun1 & Hnd1 & Hfresh1 & _ & Hcount1).
  pose proof Hrun1 as Hrun1'.
  apply run_components in Hrun1 as (Ho1 & Hjs1 & _ & Hevs1).
  rewrite Ho1, Hjs1, Hevs1.
  set (s1 := exec (recover_missed_posts env1) s) in *.
  destruct (recover_missed_posts_run env2 s1)
    as (o2 & evs2 & Hrun2 & Hnd2 & Hfresh2 & _ & Hcount2).
  pose proof Hrun2 as Hrun2'.
  apply run_components in Hrun2 as (Ho2 & Hjs2 & _ & Hevs2).
  rewrite Ho2, Hjs2, Hevs2. rewrite Hjs1 in *.
  split_and!.
  - intros k j Hlive. split.
    + intros Hin. apply (Hfresh1 k Hin). apply lookup_job_is_Some. by eexists.
    + by rewrite lookup_job_app, Hlive.
  - intros n Hn. rewrite (Hcount1 n Hn). unfold added_keys, keys.
    by rewrite length_map.
  - apply NoDup_app. split_and!; try done.
    intros k Hk1 Hk2. apply (Hfresh2 k Hk2).
    rewrite keys_app. apply elem_of_app. by right.
  - intros Hclock n Hn. subst o1.
    assert (env2 = env1) as ->.
    { destruct env1, env2. cbn in *. congruence. }
    clear Hsame Hclock.
    destruct (posts_reply env1) as [msg|r] eqn:Hrp.
    { destruct (fetch_failure_run env1 s1) as (exc & Hquiet); [by rewrite Hrp|].
      unfold add_events in Hquiet.
      apply run_components in Hquiet as (Hres & _ & _ & Hevs).
      rewrite Ho2 in Hres. rewrite Hevs2 in Hevs. rewrite Hevs.
      split_and!; [exact Hres | done | by rewrite app_nil_r]. }
    destruct (is_success r) eqn:Hok.
    2:{ destruct (fetch_failure_run env1 s1) as (exc & Hquiet);
          [rewrite Hrp; exact Hok|].
        unfold add_events in Hquiet.
        apply run_components in Hquiet as (Hres & _ & _ & Hevs).
        rewrite Ho2 in Hres. rewrite Hevs2 in Hevs. rewrite Hevs.
        split_and!; [exact Hres | done | by rewrite app_nil_r]. }
    destruct (json_body r) as [body|] eqn:Hbody.
    2:{ exfalso. clear - Hn Hrp Hok Hbody. revert Hn.
        destruct env1 as [now rp], s as [js rc tr].
        cbn [posts_reply] in Hrp. subst rp. run_recover. rewrite Hok. run_recover.
        rewrite Hbody. discriminate. }
    destruct (iterate_cases (unwrap_posts body)) as [[posts Hiter]|Hiter].
    2:{ exfalso. clear - Hn Hrp Hok Hbody Hiter. revert Hn. unfold result.
        rewrite (recover_listing_unfold env1 s r body Hrp Hok Hbody).
        unfold bind at 1. rewrite Hiter. discriminate. }
    destruct (recover_listing_run env1 s r body posts Hrp Hok Hbody Hiter)
      as (o1 & evs1' & Hr1 & _ & _ & _ & _ & Hall1).
    rewrite Hrun1' in Hr1. injection Hr1 as <- Hj1 _.
    destruct (recover_listing_run env1 s1 r body posts Hrp Hok Hbody Hiter)
      as (o2' & evs2' & Hr2 & _ & Hfresh2' & Hjobs2' & Hcount2' & _).
    rewrite Hrun2' in Hr2. injection Hr2 as <- Hj2 Ht2.
    apply app_inv_head in Ht2. subst evs2'.
    assert (added_jobs evs2 = []) as Hnone.
    { destruct (added_jobs evs2) as [|j rest] eqn:Hadded; [done|]. exfalso.
      assert (j ∈ added_jobs evs2) as Hj by (rewrite Hadded; left).
      apply added_jobs_elem in Hj as [b Hj].
      destruct (Hjobs2' j b Hj) as (_ & post & pid & Hin & Hdue & ->).
      apply (Hfresh2' ("post-" +:+ format_value pid)).
      - unfold added_keys. rewrite Hadded. cbn. left.
      - rewrite Hjs1, Hj1. by eapply Hall1. }
    assert (exists n2, o2 = Returned n2) as [n2 ->].
    { rewrite <- Ho2.
      apply (recover_listing_returns env1 s1 r body posts Hrp Hok Hbody Hiter).
      apply (recover_listing_returns env1 s r body posts Hrp Hok Hbody Hiter).
      by exists n. }
    unfold added_keys. rewrite Hnone. rewrite app_nil_r.
    split_and!; try done.
    rewrite (Hcount2 n2 eq_refl), Hnone. done.
Qed.

Lemma catchup_twice_witness :
  let env := env_listing 1700000000000000 (PList [missed_post; future_post]) in
  result (recover_missed_posts (H:=reference_runtime) env) empty_state = Returned 1 /\
  result (recover_missed_posts (H:=reference_runtime) env)
         (exec (recover_missed_posts (H:=reference_runtime) env) empty_state)
  = Returned 0.
Proof.
  cbv zeta. split; [vm_compute; reflexivity|].
  destruct (catchup_twice_recovers_once
              (H:=reference_runtime)
              (env_listing 1700000000000000 (PList [missed_post; future_post]))
              (env_listing 1700000000000000 (PList [missed_post; future_post]))
              empty_state eq_refl) as (_ & _ & _ & Hsame).
  destruct (Hsame eq_refl 1) as (Hres & _); [vm_compute; reflexivity | exact Hres].
Defined.

(** ** Response shapes *)

(** The shapes the catch-up reads a candidate list from, and the ones
    it reads as an empty list. *)
Lemma unwrap_posts_shapes :
  (forall l, unwrap_posts (PList l) = PList l) /\
  (forall d, unwrap_posts (PDict d) = dict_get_default "posts" (PList []) d) /\
  (forall d l, unwrap_posts (PDict (("posts", PList l) :: d)) = PList l) /\
  unwrap_posts (PDict []) = PList [] /\
  unwrap_posts PNone = PList [] /\
  (forall b, unwrap_posts (PBool b) = PList []) /\
  (forall z, unwrap_posts (PInt z) = PList []) /\
  (forall m e, unwrap_posts (PFloat m e) = PList []) /\
  (forall str, unwrap_posts (PStr str) = PList []).
Proof. split_and!; done. Qed.

(** A listing that yields no candidate: the catch-up returns 0. *)
Lemma empty_listing_returns_zero `{PyRuntime} env s r body :
  posts_reply env = Response r -> is_success r = true -> json_body r = Some body ->
  unwrap_posts body = PList [] ->
  recover_missed_posts env s =
    (Returned 0,
     add_events s [EvGetPosts; EvLog INFO "Catch-up complete: no missed posts found" []]).
Proof.
  intros Hrp Hok Hbody Hshape.
  rewrite (recover_listing_unfold env s r body Hrp Hok Hbody), Hshape.
  destruct s as [js rc tr]. run_recover. cbn. unfold add_events. cbn.
  flat_trace. reflexivity.
Qed.

(** C8, the failing input. A 2xx listing whose body is the object
    [{"posts": null}] is neither of the two accepted shapes, yet it is
    not read as an empty list: the value under "posts" is iterated as it
    is and the catch-up raises [TypeError]. *)
Theorem wrapped_null_listing_raises `{PyRuntime} (s : state) :
  recover_missed_posts env_wrapped_null s
  = (Raised TypeError, add_events s [EvGetPosts]).
Proof. destruct s as [js rc tr]. reflexivity. Qed.

(** ** Screening of one candidate *)

Lemma replace_Z_app s1 s2 : replace_Z (s1 +:+ s2) = replace_Z s1 +:+ replace_Z s2.
Proof.
  induction s1 as [|c s1 IH]; [done|].
  change (String c s1 +:+ s2) with (String c (s1 +:+ s2)).
  change (replace_Z (String c (s1 +:+ s2)))
    with (if Ascii.eqb c "Z" then "+00:00" +:+ replace_Z (s1 +:+ s2)
          else String c (replace_Z (s1 +:+ s2))).
  change (replace_Z (String c s1))
    with (if Ascii.eqb c "Z" then "+00:00" +:+ replace_Z s1
          else String c (replace_Z s1)).
  rewrite IH. by destruct (Ascii.eqb c "Z").
Qed.

Lemma utc_instant_ensure_aware dt :
  utc_instant (ensure_aware dt) = wall dt - default 0 (tzinfo dt).
Proof. destruct dt as [w [off|]]; reflexivity. Qed.

(** C9, as stated, fails: a candidate without a timestamp is skipped
    with no warning; the only records of the run are the two of every
    catch-up that finds nothing. *)
Lemma missing_timestamp_counterexample :
  py_or (dict_get "scheduledAt" [("id", PStr "undated-1"); ("status", PStr "scheduled")])
        (dict_get "scheduled_at" [("id", PStr "undated-1"); ("status", PStr "scheduled")])
  = PNone /\
  recover_missed_posts (H:=reference_runtime)
    (env_listing 1700000000000000 (PList [undated_post])) empty_state
  = (Returned 0,
     add_events empty_state
       [EvGetPosts; EvLog INFO "Catch-up complete: no missed posts found" []]).
Proof. split; reflexivity. Qed.

(** C9, amended. For a candidate dict: with a missing (falsy) id, with
    a missing (falsy) timestamp, or with a timestamp that is not a
    string, it is skipped and nothing is logged; with a timestamp string
    that does not parse it is skipped and one WARNING is logged; a
    timestamp is parsed after every Z is spelled "+00:00", a parsed
    value with an offset denotes its wall-clock reading minus the
    offset and one without denotes its wall-clock reading as UTC, and
    that instant decides between skipping (not before the clock
    reading) and being past due. *)
Theorem candidate_screening
        `{PyRuntime} (now : instant) (d : list (string * pyval)) (r : Z) (s : state) :
  let post_id := dict_get "id" d in
  let raw := py_or (dict_get "scheduledAt" d) (dict_get "scheduled_at" d) in
  (truthy post_id = false -> recover_post now (PDict d) r s = (Returned r, s)) /\
  (truthy raw = false -> recover_post now (PDict d) r s = (Returned r, s)) /\
  ((forall str, raw <> PStr str) -> recover_post now (PDict d) r s = (Returned r, s)) /\
  (forall str,
     truthy post_id = true -> raw = PStr str -> str <> "" ->
     fromisoformat (replace_Z str) = None ->
     recover_post now (PDict d) r s =
       (Returned r,
        add_events s [EvLog WARNING "Could not parse scheduled_at for post %s: %s"
                            [AVal post_id; AVal raw]])) /\
  (forall str parsed,
     truthy post_id = true -> raw = PStr str -> str <> "" ->
     fromisoformat (replace_Z str) = Some parsed ->
     let due := wall parsed - default 0 (tzinfo parsed) in
     (now <= due -> recover_post now (PDict d) r s = (Returned r, s)) /\
     (due < now -> past_due now (PDict d) post_id)) /\
  (forall str, replace_Z (str +:+ "Z") = replace_Z str +:+ "+00:00").
Proof.
  cbv zeta. unfold recover_post.
  set (post_id := dict_get "id" d).
  set (raw := py_or (dict_get "scheduledAt" d) (dict_get "scheduled_at" d)).
  split_and!.
  - intros ->. reflexivity.
  - intros ->. by rewrite orb_true_r.
  - intros Hns. destruct (negb (truthy post_id) || negb (truthy raw)); [done|].
    destruct raw; try done. by destruct (Hns s0).
  - intros str Hid -> Hne Hparse. rewrite Hid.
    rewrite (proj2 (truthy_PStr str) Hne). cbn [negb orb]. rewrite Hparse.
    destruct s as [js rc tr]. reflexivity.
  - intros str parsed Hid Hraw Hne Hparse. rewrite <- utc_instant_ensure_aware. split.
    + intros Hdue. rewrite Hid, Hraw.
      rewrite (proj2 (truthy_PStr str) Hne). cbn [negb orb]. rewrite Hparse.
      by rewrite (proj2 (Z.geb_le _ _) Hdue).
    + intros Hdue. exists d, str, parsed. split_and!; done.
  - intros str. apply replace_Z_app.
Qed.

Lemma candidate_screening_witness :
  recover_post (H:=reference_runtime) 1700000000000000 garbled_post 0 empty_state
  = (Returned 0,
     add_events empty_state
       [EvLog WARNING "Could not parse scheduled_at for post %s: %s"
              [AVal (PStr "garbled-1"); AVal (PStr "next tuesday")]]) /\
  recover_post (H:=reference_runtime) 1700000000000000 undated_post 0 empty_state
  = (Returned 0, empty_state) /\
  past_due (H:=reference_runtime) 1700000000000000 missed_post (PStr "missed-1").
Proof.
  split_and!.
  - refine (proj1 (proj2 (proj2 (proj2
      (candidate_screening (H:=reference_runtime) 1700000000000000
         [("id", PStr "garbled-1"); ("scheduledAt", PStr "next tuesday");
          ("status", PStr "scheduled")] 0 empty_state))))
      "next tuesday" eq_refl eq_refl _ eq_refl).
    discriminate.
  - refine (proj1 (proj2
      (candidate_screening (H:=reference_runtime) 1700000000000000
         [("id", PStr "undated-1"); ("status", PStr "scheduled")] 0 empty_state))
      eq_refl).
  - refine (proj2 (proj1 (proj2 (proj2 (proj2 (proj2
      (candidate_screening (H:=reference_runtime) 1700000000000000
         [("id", PStr "missed-1"); ("scheduledAt", PStr "2023-11-14T21:13:20.000Z");
          ("status", PStr "scheduled")] 0 empty_state)))))
      "2023-11-14T21:13:20.000Z"
      {| wall := 1699996400000000; tzinfo := Some 0 |}
      eq_refl eq_refl _ _) _).
    + discriminate.
    + vm_compute. reflexivity.
    + vm_compute. reflexivity.
Defined.

(** ** Invariants over sequences of operations *)

Lemma create_schedule_run post_id t s :
  exists o js' evs,
    create_schedule post_id t s =
      (o, {| jobs := js'; retry_counts := retry_counts s; trace := trace s ++ evs |}) /\
    (unique_keys (jobs s) -> unique_keys js').
Proof.
  destruct s as [js rc tr]. run_cases; try congruence.
  all: eexists _, _, _; split; [flat_trace; try reflexivity|].
  all: try (rewrite <- (app_nil_r tr) at 1; reflexivity).
  all: cbn [jobs]; intros; store_solver.
Qed.

Lemma cancel_schedule_run post_id s :
  exists o js' evs,
    cancel_schedule post_id s =
      (o, {| jobs := js'; retry_counts := retry_counts s; trace := trace s ++ evs |}) /\
    (unique_keys (jobs s) -> unique_keys js').
Proof.
  destruct s as [js rc tr]. run_cases; try congruence.
  all: eexists _, _, _; split; [flat_trace; try reflexivity|].
  all: try (rewrite <- (app_nil_r tr) at 1; reflexivity).
  all: cbn [jobs]; intros; store_solver.
Qed.

Lemma reschedule_post_run post_id t s :
  exists o js' evs,
    reschedule_post post_id t s =
      (o, {| jobs := js'; retry_counts := retry_counts s; trace := trace s ++ evs |}) /\
    (unique_keys (jobs s) -> unique_keys js').
Proof.
  destruct s as [js rc tr]. run_cases; try congruence.
  all: eexists _, _, _; split; [flat_trace; try reflexivity|].
  all: try (rewrite <- (app_nil_r tr) at 1; reflexivity).
  all: cbn [jobs]; intros; store_solver.
Qed.

Lemma sched_remove_job_run id s :
  exists o js' evs,
    sched_remove_job id s =
      (o, {| jobs := js'; retry_counts := retry_counts s; trace := trace s ++ evs |}) /\
    (unique_keys (jobs s) -> unique_keys js').
Proof.
  destruct s as [js rc tr]. run_cases; try congruence.
  all: eexists _, _, _; split; [flat_trace; try reflexivity|].
  all: cbn [jobs]; intros; store_solver.
Qed.

Lemma counts_bounded_delete k c : counts_bounded c -> counts_bounded (delete k c).
Proof.
  intros Hc k' v. rewrite lookup_delete. case_decide; [done|]. apply Hc.
Qed.

Lemma counts_bounded_increment k c :
  counts_bounded c -> default 0 (c !! k) < MAX_RETRIES ->
  counts_bounded (<[k := default 0 (c !! k) + 1]> c).
Proof.
  intros Hc Hlt k' v. rewrite lookup_insert. case_decide; [|apply Hc].
  intros [= <-]. destruct (c !! k) as [v0|] eqn:Hk; cbn in *.
  - specialize (Hc k v0 Hk). lia.
  - unfold MAX_RETRIES. lia.
Qed.

(** Each operation keeps both invariants. *)
Lemma run_op_invariants `{PyRuntime} (o : op) (s : state) :
  (unique_keys (jobs s) -> unique_keys (jobs (run_op o s))) /\
  (counts_bounded (retry_counts s) -> counts_bounded (retry_counts (run_op o s))).
Proof.
  destruct o as [pid t|pid|pid t|pid env|env|id]; cbn [run_op].
  - destruct (create_schedule_run pid t s) as (o & js' & evs & Hrun & Hu).
    apply run_components in Hrun as (_ & -> & -> & _). done.
  - destruct (cancel_schedule_run pid s) as (o & js' & evs & Hrun & Hu).
    apply run_components in Hrun as (_ & -> & -> & _). done.
  - destruct (reschedule_post_run pid t s) as (o & js' & evs & Hrun & Hu).
    apply run_components in Hrun as (_ & -> & -> & _). done.
  - destruct (trigger_run pid env s) as (js' & rc' & evs & Hrun & Hu & Hrc).
    apply run_components in Hrun as (_ & -> & -> & _). split; [done|].
    intros Hc. destruct Hrc as [->|[Hlt ->]].
    + by apply counts_bounded_delete.
    + by apply counts_bounded_increment.
  - destruct (recover_missed_posts_run env s) as (o & evs & Hrun & Hnd & Hfresh & _).
    apply run_components in Hrun as (_ & -> & -> & _). split; [|done].
    intros Hu. by apply unique_keys_app.
  - destruct (sched_remove_job_run id s) as (o & js' & evs & Hrun & Hu).
    apply run_components in Hrun as (_ & -> & -> & _). done.
Qed.

Lemma run_ops_invariants `{PyRuntime} (ops : list op) :
  forall s,
    (unique_keys (jobs s) -> unique_keys (jobs (run_ops ops s))) /\
    (counts_bounded (retry_counts s) -> counts_bounded (retry_counts (run_ops ops s))).
Proof.
  induction ops as [|o ops IH]; intros s; [done|].
  cbn [run_ops fold_left]. fold (run_ops ops (run_op o s)).
  destruct (run_op_invariants o s) as [Hu Hc].
  destruct (IH (run_op o s)) as [Hu' Hc']. split; auto.
Qed.

(** On a store with at most one live job per key, a reschedule leaves
    its new job as the live job of the key. *)
Lemma reschedule_post_live post_id t s :
  unique_keys (jobs s) ->
  lookup_job (job_key post_id) (jobs (exec (reschedule_post post_id t) s))
  = Some {| job_id := job_key post_id; run_date := t; job_arg := PStr post_id |}.
Proof.
  destruct s as [js rc tr]. cbn [jobs]. intros Hu.
  pose proof (lookup_delete_job_same (job_key post_id) js Hu) as Hgone.
  destruct (lookup_job (job_key post_id) js) as [j|] eqn:Hlive.
  - run_code. rewrite Hlive. run_code. rewrite Hlive. run_code.
    cbn [job_id]. rewrite Hgone. run_code.
    by apply (lookup_job_snoc_same _ (mk_job (job_key post_id) t (PStr post_id))).
  - run_code. rewrite Hlive. run_code. cbn [job_id]. rewrite Hlive. run_code.
    by apply (lookup_job_snoc_same _ (mk_job (job_key post_id) t (PStr post_id))).
Qed.

(** C1. Starting from a store with at most one live job per key, no
    sequence of creates, cancels, reschedules, firings (with their retry
    re-enqueue), catch-ups and dispatcher removals yields two live jobs
    under one key.  In the state reached, a create on a key that has a
    live job is rejected (409) and changes nothing, and a reschedule
    leaves its new job as the live job of the key. *)
Theorem one_live_job_per_key `{PyRuntime} (ops : list op) (s : state) :
  unique_keys (jobs s) ->
  let s' := run_ops ops s in
  (forall key, (live_count key (jobs s') <= 1)%nat) /\
  (forall post_id t j,
     lookup_job (job_key post_id) (jobs s') = Some j ->
     create_schedule post_id t s' =
       (Raised (HTTPException 409 ("Post " +:+ post_id +:+ " is already scheduled")), s')) /\
  (forall post_id t,
     lookup_job (job_key post_id) (jobs (exec (reschedule_post post_id t) s'))
     = Some {| job_id := job_key post_id; run_date := t; job_arg := PStr post_id |} /\
     (live_count (job_key post_id) (jobs (exec (reschedule_post post_id t) s')) <= 1)%nat).
Proof.
  intros Hu. cbv zeta.
  pose proof (proj1 (run_ops_invariants ops s) Hu) as Hu'.
  set (s' := run_ops ops s) in *. clearbody s'. split_and!.
  - by apply unique_keys_live_count.
  - intros post_id t j Hlive. destruct s' as [js rc tr]. cbn [jobs] in Hlive.
    run_code. rewrite Hlive. reflexivity.
  - intros post_id t. split.
    + by apply reschedule_post_live.
    + apply unique_keys_live_count.
      destruct (reschedule_post_run post_id t s') as (o & js' & evs & Hrun & Hk).
      apply run_components in Hrun as (_ & -> & _). by apply Hk.
Qed.

Lemma one_live_job_per_key_witness :
  (live_count "post-missed-1" (jobs (run_ops (H:=reference_runtime) busy_day empty_state))
   <= 1)%nat.
Proof.
  apply (one_live_job_per_key (H:=reference_runtime) busy_day empty_state).
  apply NoDup_nil_2.
Defined.

(** C10. Starting from a Retry Tracker whose stored counts all lie
    between 1 and [MAX_RETRIES] (the empty one, say), every sequence of
    operations leaves every stored count between 1 and [MAX_RETRIES]:
    no count above 3 and no count 0 is ever stored. *)
Theorem retry_counts_stay_bounded `{PyRuntime} (ops : list op) (s : state) :
  counts_bounded (retry_counts s) ->
  forall post_id count,
    retry_counts (run_ops ops s) !! post_id = Some count ->
    1 <= count <= 3.
Proof.
  intros Hc. apply (proj2 (run_ops_invariants ops s) Hc).
Qed.

Lemma retry_counts_stay_bounded_witness :
  retry_counts (run_ops (H:=reference_runtime) three_failures empty_state) !! "p1"
  = Some 3 /\
  retry_counts (run_ops (H:=reference_runtime) four_failures empty_state) !! "p1"
  = None /\
  1 <= 3 <= 3.
Proof.
  split; [vm_compute; reflexivity|]. split; [vm_compute; reflexivity|].
  apply (retry_counts_stay_bounded (H:=reference_runtime) three_failures empty_state)
    with (post_id := "p1").
  - intros k v. unfold empty_state. cbn [retry_counts]. by rewrite lookup_empty.
  - vm_compute. reflexivity.
Defined.

(** * Further properties of the code *)

(** ** Firing *)


(** X2. A firing whose status update and webhook call both get a 2xx
    reply sends exactly these two requests, in this order, between three
    INFO records; it drops the item's retry count, whatever it was, and
    leaves every other count and the job store as they are. *)
Theorem successful_firing_clears_retry_count
        `{PyRuntime} (post_id : string) (env : fire_env) (s : state) :
  reply_ok (publishing_reply env) = true ->
  reply_ok (webhook_reply env) = true ->
  let s' := exec (trigger_linkedin_publish post_id env) s in
  retry_counts s' = delete post_id (retry_counts s) /\
  jobs s' = jobs s /\
  exists f1 a1 f2 a2 f3 a3,
    events_of (trigger_linkedin_publish post_id env) s =
      [EvLog INFO f1 a1; EvPatch post_id StatusPublishing; EvLog INFO f2 a2;
       EvWebhook post_id; EvLog INFO f3 a3].
Proof.
  unfold reply_ok. destruct s as [js rc tr], env as [pr wr fr clk].
  cbn [publishing_reply webhook_reply].
  run_cases; try discriminate; try congruence.
  all: intros _ _; flat_trace; split_and!; try done.
  all: by eexists _, _, _, _, _, _.
Qed.

Lemma successful_firing_witness :
  retry_counts (exec (trigger_linkedin_publish (H:=reference_runtime) "p1" env_all_ok)
                     mid_retry_state) !! "p1" = None.
Proof.
  destruct (successful_firing_clears_retry_count
              (H:=reference_runtime) "p1" env_all_ok mid_retry_state eq_refl eq_refl)
    as (Hc & _).
  rewrite Hc. vm_compute. reflexivity.
Defined.


(** A failed attempt, by what the Retry Tracker holds. *)
Lemma failed_firing_run `{PyRuntime} (post_id : string) (env : fire_env) (s : state) :
  attempt_fails env = true ->
  let count := default 0 (retry_counts s !! post_id) in
  exists js' evs,
    trigger_linkedin_publish post_id env s =
      (Returned tt,
       {| jobs := js';
          retry_counts := if count <? MAX_RETRIES
                          then <[post_id := count + 1]> (retry_counts s)
                          else delete post_id (retry_counts s);
          trace := trace s ++ evs |}) /\
    length (added_jobs evs) = (if count <? MAX_RETRIES then 1%nat else 0%nat) /\
    length (failed_reports post_id evs) = (if count <? MAX_RETRIES then 0%nat else 1%nat).
Proof.
  unfold attempt_fails, reply_ok. destruct s as [js rc tr], env as [pr wr fr clk].
  cbn [publishing_reply webhook_reply retry_counts]. cbv zeta.
  destruct pr as [m1|r1]; [|destruct (is_success r1) eqn:Hok1;
    [destruct wr as [m2|r2]; [|destruct (is_success r2) eqn:Hok2]|]];
    cbn [negb andb]; try discriminate; intros _.
  all: destruct (Z.ltb_spec (default 0 (rc !! post_id)) MAX_RETRIES) as [Hlt|Hge].
  all: run_code; rewrite ?Hok1, ?Hok2; run_code.
  all: try rewrite (proj2 (Z.ltb_lt _ _) Hlt); try rewrite (proj2 (Z.ltb_ge _ _) Hge).
  all: run_cases; try congruence.
  all: eexists _, _; split; [flat_trace; reflexivity|].
  all: unfold added_jobs, failed_reports; cbn [omap list_omap length].
  all: rewrite ?String.eqb_refl; cbn [length]; done.
Qed.

Lemma failed_reports_app post_id evs1 evs2 :
  failed_reports post_id (evs1 ++ evs2)
  = failed_reports post_id evs1 ++ failed_reports post_id evs2.
Proof. unfold failed_reports. apply omap_app. Qed.

Lemma events_between_app s evs : events_between s (add_events s evs) = evs.
Proof. unfold events_between, add_events. cbn [trace]. apply drop_app_length. Qed.

Lemma fire_each_cons `{PyRuntime} post_id env envs s :
  fire_each post_id (env :: envs) s
  = fire_each post_id envs (exec (trigger_linkedin_publish post_id env) s).
Proof. reflexivity. Qed.

(** Consecutive failed firings while the bound is not reached: each one
    raises the count by one and schedules one retry. *)
Lemma failures_below_bound `{PyRuntime} (post_id : string) (envs : list fire_env) :
  forall s,
    Forall (fun env => attempt_fails env = true) envs ->
    0 <= default 0 (retry_counts s !! post_id) ->
    default 0 (retry_counts s !! post_id) + Z.of_nat (length envs) <= MAX_RETRIES ->
    exists js' rc' evs,
      fire_each post_id envs s =
        {| jobs := js'; retry_counts := rc'; trace := trace s ++ evs |} /\
      default 0 (rc' !! post_id)
        = default 0 (retry_counts s !! post_id) + Z.of_nat (length envs) /\
      length (added_jobs evs) = length envs /\
      failed_reports post_id evs = [].
Proof.
  induction envs as [|env envs IH]; intros s Hfail Hpos Hroom.
  - exists (jobs s), (retry_counts s), []. destruct s as [js rc tr]. cbn.
    rewrite app_nil_r. split_and!; try done. lia.
  - apply Forall_cons in Hfail as [Hf Hfail]. cbn [length] in Hroom.
    rewrite fire_each_cons.
    destruct (failed_firing_run post_id env s Hf) as (js1 & evs1 & Hrun & Hadd & Hrep).
    cbv zeta in Hrun, Hadd, Hrep.
    rewrite (proj2 (Z.ltb_lt _ _)) in Hrun, Hadd, Hrep by lia.
    unfold exec. rewrite Hrun. cbn [snd].
    set (s1 := {| jobs := js1;
                  retry_counts := <[post_id := default 0 (retry_counts s !! post_id) + 1]>
                                    (retry_counts s);
                  trace := trace s ++ evs1 |}).
    assert (default 0 (retry_counts s1 !! post_id)
            = default 0 (retry_counts s !! post_id) + 1) as Hc1.
    { subst s1. cbn [retry_counts]. by rewrite lookup_insert_eq. }
    destruct (IH s1 Hfail) as (js' & rc' & evs & Hrest & Hc & Hadd' & Hrep');
      [lia | lia |].
    exists js', rc', (evs1 ++ evs). split_and!.
    + rewrite Hrest. subst s1. cbn [trace]. by rewrite app_assoc.
    + rewrite Hc, Hc1. cbn [length]. lia.
    + rewrite added_jobs_app, length_app, Hadd, Hadd'. done.
    + rewrite failed_reports_app, Hrep'. rewrite app_nil_r.
      by destruct (failed_reports post_id evs1).
Qed.

Lemma fire_each_snoc `{PyRuntime} post_id envs env s :
  fire_each post_id (envs ++ [env]) s
  = exec (trigger_linkedin_publish post_id env) (fire_each post_id envs s).
Proof. unfold fire_each. by rewrite fold_left_app. Qed.

(** X4. The retry sequence.  From an item with no retry count, [n]
    consecutive failed firings with [n <= 3] leave the count at [n],
    with [n] retries scheduled and no "failed" report sent; a fourth
    failed firing in a row schedules nothing more, sends the one
    "failed" report and leaves no count behind. *)
Theorem consecutive_failures_exhaust_retries
        `{PyRuntime} (post_id : string) (envs : list fire_env) (last : fire_env)
        (s : state) :
  retry_counts s !! post_id = None ->
  Forall (fun env => attempt_fails env = true) envs ->
  attempt_fails last = true ->
  (length envs <= 3)%nat ->
  let s' := fire_each post_id envs s in
  default 0 (retry_counts s' !! post_id) = Z.of_nat (length envs) /\
  length (added_jobs (events_between s s')) = length envs /\
  failed_reports post_id (events_between s s') = [] /\
  (length envs = 3%nat ->
   let s'' := fire_each post_id (envs ++ [last]) s in
   retry_counts s'' !! post_id = None /\
   length (added_jobs (events_between s s'')) = 3%nat /\
   length (failed_reports post_id (events_between s s'')) = 1%nat).
Proof.
  intros Hnone Hfail Hlast Hlen. cbv zeta.
  destruct (failures_below_bound post_id envs s Hfail)
    as (js' & rc' & evs & Hrun & Hc & Hadd & Hrep).
  { rewrite Hnone. done. }
  { rewrite Hnone. unfold MAX_RETRIES. cbn [default from_option id]. lia. }
  rewrite Hnone in Hc. cbn [default from_option id] in Hc.
  rewrite Hrun. unfold events_between. cbn [retry_counts trace].
  rewrite drop_app_length. split_and!; try done.
  intros Hthree. rewrite fire_each_snoc, Hrun.
  set (s3 := {| jobs := js'; retry_counts := rc'; trace := trace s ++ evs |}).
  destruct (failed_firing_run post_id last s3 Hlast) as (js4 & evs4 & Hrun4 & Hadd4 & Hrep4).
  cbv zeta in Hrun4, Hadd4, Hrep4.
  assert ((default 0 (retry_counts s3 !! post_id) <? MAX_RETRIES) = false) as Hfull.
  { subst s3. cbn [retry_counts]. rewrite Hc, Hthree. reflexivity. }
  rewrite Hfull in Hrun4, Hadd4, Hrep4.
  unfold exec. rewrite Hrun4. subst s3. cbn [snd retry_counts trace].
  rewrite <- app_assoc, drop_app_length.
  rewrite added_jobs_app, failed_reports_app, !length_app, Hadd, Hadd4, Hrep, Hrep4.
  split_and!; [apply lookup_delete_eq | lia | done].
Qed.

Lemma consecutive_failures_witness :
  retry_counts
    (fire_each (H:=reference_runtime) "p1"
       ([env_webhook_down; env_status_update_down; env_webhook_down] ++ [env_webhook_down])
       empty_state) !! "p1" = None /\
  length (failed_reports "p1"
            (events_between empty_state
               (fire_each (H:=reference_runtime) "p1"
                  ([env_webhook_down; env_status_update_down; env_webhook_down]
                     ++ [env_webhook_down]) empty_state))) = 1%nat.
Proof.
  destruct (consecutive_failures_exhaust_retries
              (H:=reference_runtime) "p1"
              [env_webhook_down; env_status_update_down; env_webhook_down]
              env_webhook_down empty_state)
    as (_ & _ & _ & Hfour).
  - reflexivity.
  - repeat constructor.
  - reflexivity.
  - cbn. lia.
  - destruct (Hfour eq_refl) as (Hnone & _ & Hone). split; [exact Hnone | exact Hone].
Defined.

(** ** Catch-up *)

Lemma undecodable_listing_run
      `{PyRuntime} (env : catchup_env) (s : state) (r : response) :
  posts_reply env = Response r -> is_success r = true -> json_body r = None ->
  recover_missed_posts env s = (Raised JSONDecodeError, add_events s [EvGetPosts]).
Proof.
  destruct env as [now rp], s as [js rc tr]. cbn [posts_reply].
  intros -> Hok Hbody. run_recover. rewrite Hok. run_recover. rewrite Hbody.
  reflexivity.
Qed.

(** X5. A 2xx listing whose body is not JSON is not a fetch failure:
    the decode error is not an [httpx.HTTPError], so it leaves
    [recover_missed_posts] as an exception, with nothing logged,
    nothing enqueued and no retry count touched. *)
Theorem undecodable_listing_raises
        `{PyRuntime} (env : catchup_env) (s : state) (r : response) :
  posts_reply env = Response r -> is_success r = true -> json_body r = None ->
  result (recover_missed_posts env) s = Raised JSONDecodeError /\
  jobs (exec (recover_missed_posts env) s) = jobs s /\
  retry_counts (exec (recover_missed_posts env) s) = retry_counts s /\
  events_of (recover_missed_posts env) s = [EvGetPosts].
Proof.
  intros Hrp Hok Hbody.
  pose proof (undecodable_listing_run env s r Hrp Hok Hbody) as Hrun.
  unfold add_events in Hrun. by apply run_components in Hrun.
Qed.

Lemma undecodable_listing_witness :
  result (recover_missed_posts (H:=reference_runtime) env_not_json) one_job_state
  = Raised JSONDecodeError.
Proof.
  apply (undecodable_listing_raises (H:=reference_runtime) env_not_json one_job_state
           {| status_code := 200; text := "<html>"; json_body := None |}
           eq_refl eq_refl eq_refl).
Defined.

Lemma for_posts_app `{PyRuntime} now pre rest :
  forall r s,
    for_posts now (pre ++ rest) r s =
    match for_posts now pre r s with
    | (Returned r1, s1) => for_posts now rest r1 s1
    | (Raised e, s1) => (Raised e, s1)
    end.
Proof.
  induction pre as [|post pre IH]; intros r s; [done|].
  cbn [for_posts app]. unfold bind.
  destruct (recover_post now post r s) as [[r1|e] s1]; [apply IH | done].
Qed.

Lemma recover_post_not_dict `{PyRuntime} now post r s :
  ~ is_dict post -> recover_post now post r s = (Raised AttributeError, s).
Proof.
  intros Hnd. destruct post; try reflexivity. destruct Hnd. by eexists.
Qed.

(** X6. A candidate that is not an object stops the catch-up with
    [AttributeError], but what the candidates before it brought about
    stays: each past-due one among them has a live job, and no job was
    enqueued for any candidate after it. *)
Theorem malformed_candidate_aborts_catchup
        `{PyRuntime} (env : catchup_env) (s : state) (r : response) (body : pyval)
        (before after : list pyval) (bad : pyval) :
  posts_reply env = Response r -> is_success r = true ->
  json_body r = Some body -> unwrap_posts body = PList (before ++ bad :: after) ->
  Forall is_dict before -> ~ is_dict bad ->
  let now := clock env in
  let s' := exec (recover_missed_posts env) s in
  result (recover_missed_posts env) s = Raised AttributeError /\
  (forall post pid,
     post ∈ before -> past_due now post pid ->
     is_Some (lookup_job ("post-" +:+ format_value pid) (jobs s'))) /\
  (forall j b,
     EvAddJob j b ∈ events_of (recover_missed_posts env) s ->
     exists post pid, post ∈ before /\ past_due now post pid /\ j = catchup_job now pid).
Proof.
  intros Hrp Hok Hbody Hshape Hdicts Hbad. cbv zeta.
  destruct (for_posts_run (clock env) before 0 (add_events s [EvGetPosts]))
    as (o & evs & Hrun & _ & _ & Hjobs & _ & Hall).
  apply (for_posts_returns (clock env) before 0 (add_events s [EvGetPosts])) in Hdicts
    as [n Hn].
  unfold result in Hn. rewrite Hrun in Hn. cbn [fst] in Hn. subst o.
  cbn [add_events jobs retry_counts trace] in Hrun, Hall.
  assert (recover_missed_posts env s =
          (Raised AttributeError,
           {| jobs := jobs s ++ added_jobs evs;
              retry_counts := retry_counts s;
              trace := trace s ++ EvGetPosts :: evs |})) as Hfull.
  { rewrite (recover_listing_unfold env s r body Hrp Hok Hbody), Hshape.
    unfold bind at 1. cbn [iterate ret]. unfold bind at 1.
    rewrite for_posts_app, Hrun. cbn [for_posts]. unfold bind at 1.
    rewrite (recover_post_not_dict _ _ _ _ Hbad).
    rewrite <- app_assoc. reflexivity. }
  apply run_components in Hfull as (-> & -> & _ & ->). split_and!.
  - done.
  - intros post pid Hin Hdue. apply lookup_job_is_Some. by eapply Hall.
  - intros j b Hin. apply elem_of_cons in Hin as [?|Hin]; [discriminate|].
    destruct (Hjobs j b Hin) as (_ & Hex). exact Hex.
Qed.

Lemma malformed_candidate_witness :
  let env := env_listing 1700000000000000 (PList [missed_post; PInt 7; future_post]) in
  result (recover_missed_posts (H:=reference_runtime) env) empty_state
  = Raised AttributeError /\
  is_Some (lookup_job "post-missed-1"
             (jobs (exec (recover_missed_posts (H:=reference_runtime) env) empty_state))).
Proof.
  cbv zeta.
  destruct (malformed_candidate_aborts_catchup
              (H:=reference_runtime)
              (env_listing 1700000000000000 (PList [missed_post; PInt 7; future_post]))
              empty_state _ _ [missed_post] [future_post] (PInt 7)
              eq_refl eq_refl eq_refl eq_refl)
    as (Hres & Hlive & _).
  - repeat constructor. by eexists.
  - intros [d Hd]. discriminate Hd.
  - split; [exact Hres|].
    apply (Hlive missed_post (PStr "missed-1")); [left|].
    exists [("id", PStr "missed-1"); ("scheduledAt", PStr "2023-11-14T21:13:20.000Z");
            ("status", PStr "scheduled")],
           "2023-11-14T21:13:20.000Z",
           {| wall := 1699996400000000; tzinfo := Some 0 |}.
    split_and!; first [reflexivity | discriminate | (vm_compute; reflexivity)].
Defined.

(** X7. Whatever the system of record replies, and whether the
    catch-up returns or raises: the Retry Tracker is untouched, and the
    job store is the old one with new jobs put after it (no live job is
    removed, changed or moved), the new ones under pairwise distinct
    keys and all due 30 seconds after the clock reading. *)
Theorem catchup_only_appends_jobs `{PyRuntime} (env : catchup_env) (s : state) :
  let s' := exec (recover_missed_posts env) s in
  retry_counts s' = retry_counts s /\
  exists new,
    jobs s' = jobs s ++ new /\
    NoDup (keys new) /\
    Forall (fun j => run_date j = clock env + 30 * 1000000) new.
Proof.
  cbv zeta.
  destruct (recover_missed_posts_run env s) as (o & evs & Hrun & Hnd & _ & Hdue & _).
  apply run_components in Hrun as (_ & -> & -> & _).
  split; [done|]. exists (added_jobs evs). split_and!; try done.
  apply Forall_forall. intros j Hj. apply added_jobs_elem in Hj as [b Hj].
  destruct (Hdue j b Hj) as [_ ->]. unfold timedelta_seconds. lia.
Qed.

Lemma candidate_key_past_due `{PyRuntime} now post pid :
  past_due now post pid -> job_id (catchup_job now pid) = candidate_key post.
Proof. intros (d & _ & _ & -> & <- & _). reflexivity. Qed.

(** X8. The count a catch-up returns lies between 0 and the number of
    candidates in the listing. *)
Theorem catchup_count_is_bounded
        `{PyRuntime} (env : catchup_env) (s : state) (r : response) (body : pyval)
        (posts : list pyval) (n : Z) :
  posts_reply env = Response r -> is_success r = true ->
  json_body r = Some body -> unwrap_posts body = PList posts ->
  result (recover_missed_posts env) s = Returned n ->
  0 <= n <= Z.of_nat (length posts).
Proof.
  intros Hrp Hok Hbody Hshape Hres.
  assert (iterate (unwrap_posts body) = ret posts) as Hiter by (by rewrite Hshape).
  destruct (recover_listing_run env s r body posts Hrp Hok Hbody Hiter)
    as (o & evs & Hrun & Hnd & _ & Hjobs & Hcount & _).
  apply run_components in Hrun as (Ho & _). rewrite Ho in Hres. subst o.
  rewrite (Hcount n eq_refl). split; [lia|].
  apply inj_le. unfold added_keys, keys in Hnd.
  rewrite <- (length_map job_id (added_jobs evs)), <- (length_map candidate_key posts).
  apply submseteq_length, NoDup_submseteq; [done|].
  intros k Hk. apply list_elem_of_fmap in Hk as (j & -> & Hj).
  apply added_jobs_elem in Hj as [b Hj].
  destruct (Hjobs j b Hj) as (_ & post & pid & Hin & Hdue & ->).
  rewrite (candidate_key_past_due _ _ _ Hdue). by apply list_elem_of_fmap_2.
Qed.

Lemma catchup_count_witness :
  0 <= 1 <= Z.of_nat (length [missed_post; future_post]).
Proof.
  apply (catchup_count_is_bounded
           (H:=reference_runtime)
           (env_listing 1700000000000000 (PList [missed_post; future_post]))
           empty_state _ _ [missed_post; future_post] 1 eq_refl eq_refl eq_refl eq_refl).
  vm_compute. reflexivity.
Defined.

(** ** Helpers of the two modules *)

Lemma no_Z_cons c s :
  no_Z (String c s) <-> c <> "Z"%char /\ no_Z s.
Proof.
  unfold no_Z. cbn [list_ascii_of_string]. rewrite not_elem_of_cons.
  split; intros [Hc Hs]; (split; [congruence | done]).
Qed.

(** X9. [replace("Z", "+00:00")] leaves no Z in a timestamp, and
    changes a timestamp exactly when it holds a Z: one that spells its
    offset out goes to the parser as it came. *)
Theorem replace_Z_leaves_no_Z (s : string) :
  no_Z (replace_Z s) /\ (replace_Z s = s <-> no_Z s).
Proof.
  induction s as [|c s [IHno IHeq]].
  - split; [apply not_elem_of_nil | split; [intros _; apply not_elem_of_nil | done]].
  - cbn [replace_Z]. destruct (Ascii.eqb_spec c "Z") as [->|Hc].
    + split.
      * change ("+00:00" +:+ replace_Z s)
          with (String "+" (String "0" (String "0" (String ":" (String "0"
                  (String "0" (replace_Z s))))))).
        rewrite !no_Z_cons. split_and!; try discriminate. done.
      * split; [discriminate|]. intros Hno. apply no_Z_cons in Hno as [Hc _]. done.
    + rewrite !no_Z_cons. split; [done|]. rewrite <- IHeq. split.
      * intros [= Heq]. done.
      * intros [_ ->]. done.
Qed.

Lemma length_substring_0 n s :
  String.length (substring 0 n s) = Nat.min n (String.length s).
Proof.
  revert s. induction n as [|n IH]; intros [|c s]; cbn; auto.
Qed.

(** X10. The excerpt of a response body that goes into a log record
    is never empty and never longer than 500 characters; a body of at
    most 500 characters, unless empty, is logged whole. *)
Theorem body_excerpt_is_bounded (r : response) :
  (1 <= String.length (body_excerpt r) <= 500)%nat /\
  ((1 <= String.length (text r) <= 500)%nat -> body_excerpt r = text r).
Proof.
  unfold body_excerpt. destruct (String.eqb_spec (text r) "") as [->|Hne].
  - split; [cbn; lia | cbn; lia].
  - assert (1 <= String.length (text r))%nat as Hpos.
    { destruct (text r); [done | cbn; lia]. }
    rewrite length_substring_0. split; [lia|].
    intros [_ Hle]. clear Hne Hpos. revert Hle. generalize 500%nat as n.
    induction (text r) as [|c s IH]; intros n Hle; [by destruct n|].
    destruct n as [|n]; [cbn in Hle; lia|]. cbn in *. f_equal. apply IH. lia.
Qed.

(** X11. The key of an item's job determines the item, and it is
    never the id under which the periodic catch-up is registered: the
    handlers, the retry and the catch-up, which all go by [post-<id>],
    cannot reach that job or each other's. *)
Theorem job_key_is_injective_and_reserved (a b : string) :
  (job_key a = job_key b -> a = b) /\ job_key a <> CATCHUP_JOB_ID.
Proof.
  unfold job_key, CATCHUP_JOB_ID.
  cbv beta iota delta [String.append]. split.
  - by intros [= ->].
  - discriminate.
Qed.

(** ** The handlers *)

Lemma delete_job_snoc_free id js j :
  lookup_job id js = None -> job_id j = id -> delete_job id (js ++ [j]) = js.
Proof.
  intros Hfree Hid. unfold lookup_job in Hfree.
  induction js as [|j' js IH]; cbn in *.
  - by rewrite (proj2 (has_id_true id j) Hid).
  - destruct (has_id id j'); [done|]. by rewrite IH.
Qed.

Lemma length_delete_job id js j :
  lookup_job id js = Some j -> length js = S (length (delete_job id js)).
Proof.
  unfold lookup_job. induction js as [|j' js IH]; cbn; [done|].
  destruct (has_id id j'); [done|]. intros Hf. by rewrite (IH Hf).
Qed.

(** X12. A create on a key with no live job answers with the derived
    job id, the item id, the time it was given and "scheduled"; a query
    right after it answers with that time; every other key keeps what
    it had; and a cancel right after it gives the job store back as it
    was before the create. *)
Theorem created_schedule_round_trip (post_id : string) (t : instant) (s : state) :
  lookup_job (job_key post_id) (jobs s) = None ->
  let s' := exec (create_schedule post_id t) s in
  result (create_schedule post_id t) s
  = Returned {| resp_job_id := "post-" +:+ post_id; resp_post_id := post_id;
                resp_scheduled_at := t; resp_status := "scheduled" |} /\
  result (get_schedule post_id) s'
  = Returned {| resp_job_id := "post-" +:+ post_id; resp_post_id := post_id;
                resp_scheduled_at := t; resp_status := "scheduled" |} /\
  (forall k, k <> job_key post_id -> lookup_job k (jobs s') = lookup_job k (jobs s)) /\
  result (cancel_schedule post_id) s' = Returned ("cancelled", post_id) /\
  jobs (exec (cancel_schedule post_id) s') = jobs s.
Proof.
  destruct s as [js rc tr]. cbn [jobs]. intros Hfree. cbv zeta.
  set (j := {| job_id := job_key post_id; run_date := t; job_arg := PStr post_id |}).
  assert (lookup_job (job_key post_id) (js ++ [j]) = Some j) as Hlive
    by (by apply (lookup_job_snoc_same js j)).
  assert (create_schedule post_id t {| jobs := js; retry_counts := rc; trace := tr |}
          = (Returned {| resp_job_id := job_key post_id; resp_post_id := post_id;
                         resp_scheduled_at := t; resp_status := "scheduled" |},
             {| jobs := js ++ [j]; retry_counts := rc;
                trace := tr ++ [EvAddJob j false;
                                EvLog INFO "Scheduled post %s for %s"
                                      [AStr post_id; ATime t]] |})) as Hrun.
  { run_code. rewrite Hfree. run_code. cbn [job_id]. rewrite Hfree. run_code.
    flat_trace. reflexivity. }
  unfold result, exec, get_schedule. rewrite Hrun. cbn [fst snd].
  split_and!.
  - reflexivity.
  - run_code. rewrite Hlive. reflexivity.
  - intros k Hk. cbn [jobs]. by apply lookup_job_snoc_other.
  - run_code. rewrite Hlive. run_code. rewrite Hlive. reflexivity.
  - run_code. rewrite Hlive. run_code. rewrite Hlive. run_code.
    by apply delete_job_snoc_free.
Qed.

Lemma created_schedule_witness :
  result (get_schedule "b") (exec (create_schedule "b" 1700000500000000) one_job_state)
  = Returned {| resp_job_id := "post-b"; resp_post_id := "b";
                resp_scheduled_at := 1700000500000000; resp_status := "scheduled" |}.
Proof.
  apply (created_schedule_round_trip "b" 1700000500000000 one_job_state).
  reflexivity.
Defined.

(** X13. On a store with at most one live job per key, a cancel of a
    live key answers "cancelled", removes exactly one job, leaves every
    other key as it was, and a query right after it answers 404. *)
Theorem cancelled_schedule_is_gone (post_id : string) (s : state) (j : job) :
  unique_keys (jobs s) ->
  lookup_job (job_key post_id) (jobs s) = Some j ->
  let s' := exec (cancel_schedule post_id) s in
  result (cancel_schedule post_id) s = Returned ("cancelled", post_id) /\
  result (get_schedule post_id) s'
  = Raised (HTTPException 404 ("No schedule found for post " +:+ post_id)) /\
  (forall k, k <> job_key post_id -> lookup_job k (jobs s') = lookup_job k (jobs s)) /\
  length (jobs s) = S (length (jobs s')).
Proof.
  destruct s as [js rc tr]. cbn [jobs]. intros Hu Hlive. cbv zeta.
  assert (cancel_schedule post_id {| jobs := js; retry_counts := rc; trace := tr |}
          = (Returned ("cancelled", post_id),
             {| jobs := delete_job (job_key post_id) js; retry_counts := rc;
                trace := tr ++ [EvRemoveJob (job_key post_id);
                                EvLog INFO "Cancelled schedule for post %s"
                                      [AStr post_id]] |})) as Hrun.
  { run_code. rewrite Hlive. run_code. rewrite Hlive. run_code.
    flat_trace. reflexivity. }
  unfold result, exec, get_schedule. rewrite Hrun. cbn [fst snd jobs].
  split_and!.
  - reflexivity.
  - run_code. by rewrite (lookup_delete_job_same _ _ Hu).
  - intros k Hk. by apply lookup_delete_job_other.
  - by eapply length_delete_job.
Qed.

Lemma cancelled_schedule_witness :
  result (get_schedule "a") (exec (cancel_schedule "a") one_job_state)
  = Raised (HTTPException 404 "No schedule found for post a").
Proof.
  eapply (cancelled_schedule_is_gone "a" one_job_state).
  - repeat constructor. intros Hin. by apply elem_of_nil in Hin.
  - reflexivity.
Defined.

(** X14. On a key with no live job, a cancel and a query both answer
    404 and leave the whole state as it is: the cancel does not get as
    far as calling [remove_job]. *)
Theorem missing_schedule_is_not_found (post_id : string) (s : state) :
  lookup_job (job_key post_id) (jobs s) = None ->
  cancel_schedule post_id s
  = (Raised (HTTPException 404 ("No schedule found for post " +:+ post_id)), s) /\
  get_schedule post_id s
  = (Raised (HTTPException 404 ("No schedule found for post " +:+ post_id)), s).
Proof.
  destruct s as [js rc tr]. cbn [jobs]. intros Hfree.
  split; unfold get_schedule; run_code; rewrite Hfree; reflexivity.
Qed.

Lemma missing_schedule_witness :
  result (cancel_schedule "ghost") one_job_state
  = Raised (HTTPException 404 "No schedule found for post ghost").
Proof.
  unfold result.
  rewrite (proj1 (missing_schedule_is_not_found "ghost" one_job_state eq_refl)).
  reflexivity.
Defined.

(** X15. On a store with at most one live job per key, a reschedule
    never fails, whether the key has a live job or not: it answers
    "rescheduled" with the new time, a query right after it answers
    that time, every other key keeps what it had, and the store still
    has at most one live job per key. *)
Theorem reschedule_is_an_upsert (post_id : string) (t : instant) (s : state) :
  unique_keys (jobs s) ->
  let s' := exec (reschedule_post post_id t) s in
  result (reschedule_post post_id t) s
  = Returned {| resp_job_id := "post-" +:+ post_id; resp_post_id := post_id;
                resp_scheduled_at := t; resp_status := "rescheduled" |} /\
  result (get_schedule post_id) s'
  = Returned {| resp_job_id := "post-" +:+ post_id; resp_post_id := post_id;
                resp_scheduled_at := t; resp_status := "scheduled" |} /\
  (forall k, k <> job_key post_id -> lookup_job k (jobs s') = lookup_job k (jobs s)) /\
  unique_keys (jobs s').
Proof.
  intros Hu. cbv zeta.
  pose proof (reschedule_post_live post_id t s Hu) as Hlive.
  destruct (reschedule_post_run post_id t s) as (o & js' & evs & Hrun & Hkeep).
  split_and!.
  - clear Hlive Hrun Hkeep. destruct s as [js rc tr]. cbn [jobs] in Hu.
    pose proof (lookup_delete_job_same (job_key post_id) js Hu) as Hgone.
    destruct (lookup_job (job_key post_id) js) as [j|] eqn:Hl.
    + run_code. rewrite Hl. run_code. rewrite Hl. run_code.
      cbn [job_id]. rewrite Hgone. reflexivity.
    + run_code. rewrite Hl. run_code. cbn [job_id]. rewrite Hl. reflexivity.
  - revert Hlive. generalize (exec (reschedule_post post_id t) s). intros [js1 rc1 tr1].
    cbn [jobs]. intros Hlive. unfold get_schedule. run_code. rewrite Hlive. reflexivity.
  - clear Hlive Hrun Hkeep. destruct s as [js rc tr]. cbn [jobs] in Hu.
    pose proof (lookup_delete_job_same (job_key post_id) js Hu) as Hgone.
    intros k Hk.
    destruct (lookup_job (job_key post_id) js) as [j|] eqn:Hl.
    + run_code. rewrite Hl. run_code. rewrite Hl. run_code.
      cbn [job_id]. rewrite Hgone. run_code.
      rewrite lookup_job_snoc_other by (cbn [job_id]; done).
      by apply lookup_delete_job_other.
    + run_code. rewrite Hl. run_code. cbn [job_id]. rewrite Hl. run_code.
      by rewrite lookup_job_snoc_other by (cbn [job_id]; done).
  - apply run_components in Hrun as (_ & -> & _). by apply Hkeep.
Qed.

Lemma reschedule_upsert_witness :
  result (reschedule_post "newone" 1700000900000000) one_job_state
  = Returned {| resp_job_id := "post-newone"; resp_post_id := "newone";
                resp_scheduled_at := 1700000900000000; resp_status := "rescheduled" |}.
Proof.
  apply (reschedule_is_an_upsert "newone" 1700000900000000 one_job_state).
  repeat constructor. intros Hin. by apply elem_of_nil in Hin.
Defined.

(** ** The process *)

(** X16. Startup of a stopped scheduler.  When the listing cannot be
    fetched (network error or non-2xx) the startup goes through: the
    scheduler runs, the post jobs are as before, and the periodic
    catch-up is registered every 300 seconds.  When the listing comes
    back 2xx with a body that is not JSON, the startup catch-up is not
    guarded: the error leaves [lifespan], with the scheduler already
    started and the periodic catch-up not registered. *)
Theorem startup_depends_on_first_catchup
        `{PyRuntime} (env : catchup_env) (a : service) :
  running a = false ->
  (reply_ok (posts_reply env) = false ->
   fst (lifespan_startup env a) = LifespanOk /\
   running (snd (lifespan_startup env a)) = true /\
   periodic_catchup (snd (lifespan_startup env a)) = Some 300 /\
   jobs (sched (snd (lifespan_startup env a))) = jobs (sched a)) /\
  (forall r,
     posts_reply env = Response r -> is_success r = true -> json_body r = None ->
     fst (lifespan_startup env a) = LifespanRaised JSONDecodeError /\
     running (snd (lifespan_startup env a)) = true /\
     periodic_catchup (snd (lifespan_startup env a)) = periodic_catchup a /\
     jobs (sched (snd (lifespan_startup env a))) = jobs (sched a)).
Proof.
  intros Hstopped. unfold lifespan_startup. rewrite Hstopped. split.
  - intros Hfail.
    match goal with
    | |- context [recover_missed_posts env ?s0] =>
        destruct (fetch_failure_run env s0 Hfail) as [exc ->]
    end.
    cbn [fst snd running periodic_catchup sched]. split_and!; done.
  - intros r Hrp Hok Hbody.
    match goal with
    | |- context [recover_missed_posts env ?s0] =>
        rewrite (undecodable_listing_run env s0 r Hrp Hok Hbody)
    end.
    cbn [fst snd running periodic_catchup sched]. split_and!; done.
Qed.

Lemma startup_witness :
  fst (lifespan_startup (H:=reference_runtime) env_api_down fresh_service) = LifespanOk /\
  fst (lifespan_startup (H:=reference_runtime) env_not_json fresh_service)
  = LifespanRaised JSONDecodeError.
Proof.
  destruct (startup_depends_on_first_catchup
              (H:=reference_runtime) env_api_down fresh_service eq_refl) as [Hdown _].
  destruct (startup_depends_on_first_catchup
              (H:=reference_runtime) env_not_json fresh_service eq_refl) as [_ Hbad].
  split.
  - apply Hdown. reflexivity.
  - eapply Hbad; reflexivity.
Defined.

(** X17. What the health endpoint counts: a create on a key with no
    live job raises the pending count by one, a cancel right after it
    brings it back, and neither changes the running flag. *)
Theorem health_follows_the_job_store (post_id : string) (t : instant) (a : service) :
  lookup_job (job_key post_id) (jobs (sched a)) = None ->
  let a1 := service_run (create_schedule post_id t) a in
  let a2 := service_run (cancel_schedule post_id) a1 in
  health_pending_jobs (health a1) = health_pending_jobs (health a) + 1 /\
  health_pending_jobs (health a2) = health_pending_jobs (health a) /\
  scheduler_running (health a1) = scheduler_running (health a) /\
  scheduler_running (health a2) = scheduler_running (health a).
Proof.
  intros Hfree. cbv zeta. destruct a as [[js rc tr] run per]. cbn [sched jobs] in Hfree.
  set (j := {| job_id := job_key post_id; run_date := t; job_arg := PStr post_id |}).
  assert (lookup_job (job_key post_id) (js ++ [j]) = Some j) as Hlive
    by (by apply (lookup_job_snoc_same js j)).
  assert (jobs (exec (create_schedule post_id t)
                     {| jobs := js; retry_counts := rc; trace := tr |}) = js ++ [j])
    as Hcreated.
  { run_code. rewrite Hfree. run_code. cbn [job_id]. rewrite Hfree. reflexivity. }
  unfold health, pending_jobs, service_run.
  cbn [health_pending_jobs scheduler_running sched running periodic_catchup].
  split_and!; try done.
  - rewrite Hcreated, length_app. cbn [length jobs]. destruct per; lia.
  - revert Hcreated.
    generalize (exec (create_schedule post_id t)
                     {| jobs := js; retry_counts := rc; trace := tr |}).
    intros [js1 rc1 tr1]. cbn [jobs]. intros ->.
    f_equal. f_equal. f_equal. run_code. rewrite Hlive. run_code. rewrite Hlive.
    run_code. by apply delete_job_snoc_free.
Qed.

Lemma health_witness :
  health_pending_jobs
    (health (service_run (create_schedule "b" 1700000500000000)
               {| sched := one_job_state; running := true;
                  periodic_catchup := Some 300 |}))
  = 3.
Proof.
  destruct (health_follows_the_job_store
              "b" 1700000500000000
              {| sched := one_job_state; running := true; periodic_catchup := Some 300 |}
              eq_refl) as (Hone & _).
  rewrite Hone. reflexivity.
Defined.

(** ** More on the catch-up *)

(** X18. A 2xx listing that yields no candidate (an empty list, an
    object without "posts", or a body that is neither a list nor an
    object) makes the catch-up return 0 after one summary record, with
    the job store and the Retry Tracker as they were. *)
Theorem listing_without_candidates_returns_zero
        `{PyRuntime} (env : catchup_env) (s : state) (r : response) (body : pyval) :
  posts_reply env = Response r -> is_success r = true -> json_body r = Some body ->
  unwrap_posts body = PList [] ->
  result (recover_missed_posts env) s = Returned 0 /\
  jobs (exec (recover_missed_posts env) s) = jobs s /\
  retry_counts (exec (recover_missed_posts env) s) = retry_counts s /\
  events_of (recover_missed_posts env) s
  = [EvGetPosts; EvLog INFO "Catch-up complete: no missed posts found" []].
Proof.
  intros Hrp Hok Hbody Hshape.
  pose proof (empty_listing_returns_zero env s r body Hrp Hok Hbody Hshape) as Hrun.
  unfold add_events in Hrun. by apply run_components in Hrun.
Qed.

Lemma listing_without_candidates_witness :
  result (recover_missed_posts (H:=reference_runtime)
            (env_listing 1700000000000000 (PDict [("items", PList [missed_post])])))
         one_job_state
  = Returned 0.
Proof.
  apply (listing_without_candidates_returns_zero
           (H:=reference_runtime)
           (env_listing 1700000000000000 (PDict [("items", PList [missed_post])]))
           one_job_state _ _ eq_refl eq_refl eq_refl eq_refl).
Defined.

(** The retry a failed firing below the bound leaves in the store. *)
Lemma failed_firing_leaves_retry_job
      `{PyRuntime} (post_id : string) (env : fire_env) (s : state) :
  attempt_fails env = true ->
  default 0 (retry_counts s !! post_id) < MAX_RETRIES ->
  lookup_job (job_key post_id) (jobs (exec (trigger_linkedin_publish post_id env) s))
  = Some (retry_job post_id (retry_clock env)).
Proof.
  unfold attempt_fails, reply_ok. destruct s as [js rc tr], env as [pr wr fr clk].
  cbn [publishing_reply webhook_reply retry_counts retry_clock].
  intros Hfail Hlt. revert Hfail.
  run_top_cases; try lia; cbn [negb andb]; try discriminate.
  all: intros _; assumption.
Qed.

(** X19. A retry in flight is safe from the catch-up: after a failed
    firing below the bound, a catch-up, whatever its listing says
    about the item, returns or raises with the retry job still the live
    job of the key, due 120 seconds after the failed firing, and with
    the retry count as the firing left it. *)
Theorem catchup_keeps_retry_in_flight
        `{PyRuntime} (post_id : string) (fenv : fire_env) (cenv : catchup_env)
        (s : state) :
  attempt_fails fenv = true ->
  default 0 (retry_counts s !! post_id) < MAX_RETRIES ->
  let s1 := exec (trigger_linkedin_publish post_id fenv) s in
  let s2 := exec (recover_missed_posts cenv) s1 in
  lookup_job ("post-" +:+ post_id) (jobs s2)
  = Some {| job_id := "post-" +:+ post_id;
            run_date := retry_clock fenv + 120 * 1000000;
            job_arg := PStr post_id |} /\
  ("post-" +:+ post_id ∉ added_keys (events_of (recover_missed_posts cenv) s1)) /\
  retry_counts s2 !! post_id = Some (default 0 (retry_counts s !! post_id) + 1).
Proof.
  intros Hfail Hlt. cbv zeta.
  pose proof (failed_firing_leaves_retry_job post_id fenv s Hfail Hlt) as Hlive.
  destruct (failed_firing_run post_id fenv s Hfail) as (js1 & evs1 & Hrun1 & _).
  cbv zeta in Hrun1. rewrite (proj2 (Z.ltb_lt _ _) Hlt) in Hrun1.
  apply run_components in Hrun1 as (_ & _ & Hrc1 & _).
  set (s1 := exec (trigger_linkedin_publish post_id fenv) s) in *.
  destruct (recover_missed_posts_run cenv s1) as (o & evs & Hrun & _ & Hfresh & _).
  apply run_components in Hrun as (_ & -> & -> & ->).
  split_and!.
  - rewrite lookup_job_app. unfold job_key in Hlive. rewrite Hlive.
    unfold retry_job, timedelta_seconds. reflexivity.
  - intros Hin. apply (Hfresh _ Hin). apply lookup_job_is_Some.
    unfold job_key in Hlive. rewrite Hlive. by eexists.
  - rewrite Hrc1. apply lookup_insert_eq.
Qed.

Lemma catchup_keeps_retry_witness :
  lookup_job "post-missed-1"
    (jobs (exec (recover_missed_posts (H:=reference_runtime)
                   (env_listing 1700000000000000 (PList [missed_post])))
                (exec (trigger_linkedin_publish (H:=reference_runtime)
                         "missed-1" env_webhook_down) empty_state)))
  = Some {| job_id := "post-missed-1"; run_date := 1700000120000000;
            job_arg := PStr "missed-1" |}.
Proof.
  apply (catchup_keeps_retry_in_flight
           (H:=reference_runtime) "missed-1" env_webhook_down
           (env_listing 1700000000000000 (PList [missed_post])) empty_state).
  - reflexivity.
  - vm_compute. reflexivity.
Defined.
